(** * Syncable donation notifier: a shallow embedding of [src/main.ts]

    The script scans a mailbox for donation mails, extracts four labelled
    fields from each body with regular expressions, posts a notification
    to a webhook, appends a row to a spreadsheet and marks the mail read.

    Layout of the development:
    - [JsString]  : UTF-16 strings, character classes, [trim], [padStart];
    - [Regex]     : the backtracking matcher for the fragment of regular
                    expressions the source uses, [exec] and [split];
    - [DateUtils], [JsNumber], [GmailExtract] : the pure parts of the source;
    - [Host], [M] : the platform services as oracles over the trace of
                    requests, and computations that extend the trace and
                    return or raise;
    - [ConfigService], [GmailService], [SlackService], [SheetsService],
      [DonationNotifierApp] : the classes of the source;
    - the vocabulary of the properties, then the properties: first those
      of the specification (C1 to C10), then further ones read off the
      code (X1 to X18). *)

From Stdlib Require Import String Ascii.
From Stdlib Require Import List Bool Arith ZArith NArith Lia.
Import ListNotations.

(* ------------------------------------------------------------------ *)
(** ** Results of fallible code *)

(** A JavaScript exception value.  The script only ever prints it. *)
Inductive exn : Type :=
| TypeError
| JsError (message : list N)
| HostError (code : nat).

Inductive result (A : Type) : Type :=
| Ok (a : A)
| Throw (e : exn).

Arguments Ok {A} a.
Arguments Throw {A} e.

Definition rbind {A B} (r : result A) (f : A -> result B) : result B :=
  match r with
  | Ok a => f a
  | Throw e => Throw e
  end.

(* ------------------------------------------------------------------ *)
(** ** Strings *)

Module JsString.

(** A string is a sequence of UTF-16 code units. *)
Definition char := N.
Definition jsstring := list char.

(** String literals of this file are written in UTF-8, as the source is;
    [js] decodes them to code units (surrogate pairs above U+FFFF). *)
Definition cont (b : N) : N := N.land b 63.

Definition code_units (cp : N) : list char :=
  if (cp <? 65536)%N then [cp]
  else
    let v := (cp - 65536)%N in
    [(55296 + N.shiftr v 10)%N; (56320 + N.land v 1023)%N].

Fixpoint utf16_of_utf8 (bs : list N) : jsstring :=
  match bs with
  | [] => []
  | b0 :: t0 =>
      if (b0 <? 128)%N then b0 :: utf16_of_utf8 t0
      else
        match t0 with
        | [] => [65533%N]
        | b1 :: t1 =>
            if (b0 <? 224)%N then
              ((N.land b0 31) * 64 + cont b1)%N :: utf16_of_utf8 t1
            else
              match t1 with
              | [] => [65533%N]
              | b2 :: t2 =>
                  if (b0 <? 240)%N then
                    ((N.land b0 15) * 4096 + cont b1 * 64 + cont b2)%N
                      :: utf16_of_utf8 t2
                  else
                    match t2 with
                    | [] => [65533%N]
                    | b3 :: t3 =>
                        code_units ((N.land b0 7) * 262144 + cont b1 * 4096
                                    + cont b2 * 64 + cont b3)%N
                          ++ utf16_of_utf8 t3
                    end
              end
        end
  end.

Definition js (s : string) : jsstring :=
  utf16_of_utf8 (map N_of_ascii (list_ascii_of_string s)).

(** [\d] *)
Definition is_digit (c : char) : bool := ((48 <=? c) && (c <=? 57))%N.

(** The line terminators: LF, CR, LS, PS. *)
Definition is_line_terminator (c : char) : bool :=
  ((c =? 10) || (c =? 13) || (c =? 8232) || (c =? 8233))%N.

(** [\s], which is also what [trim] strips: WhiteSpace and
    LineTerminator of ECMAScript. *)
Definition is_space (c : char) : bool :=
  ((c =? 9) || (c =? 10) || (c =? 11) || (c =? 12) || (c =? 13)
   || (c =? 32) || (c =? 160) || (c =? 5760)
   || ((8192 <=? c) && (c <=? 8202))
   || (c =? 8232) || (c =? 8233) || (c =? 8239) || (c =? 8287)
   || (c =? 12288) || (c =? 65279))%N.

(** [.] without the [s] flag. *)
Definition is_dot (c : char) : bool := negb (is_line_terminator c).

Definition is_char (x : char) (c : char) : bool := (c =? x)%N.

Definition SLASH : char := 47%N.
Definition COLON : char := 58%N.
Definition SPACE : char := 32%N.
Definition COMMA : char := 44%N.
Definition ZERO : char := 48%N.
Definition MINUS : char := 45%N.
Definition PLUS : char := 43%N.

Fixpoint drop_while (p : char -> bool) (s : jsstring) : jsstring :=
  match s with
  | [] => []
  | c :: s' => if p c then drop_while p s' else s
  end.

Definition trim_start (s : jsstring) : jsstring := drop_while is_space s.
Definition trim_end (s : jsstring) : jsstring :=
  rev (drop_while is_space (rev s)).

(** [String.prototype.trim] *)
Definition trim (s : jsstring) : jsstring := trim_end (trim_start s).

(** [s.padStart(n, '0')]: a string of length [n] or more is returned as
    it is, a shorter one gets the missing zeros in front. *)
Definition padStart0 (n : nat) (s : jsstring) : jsstring :=
  repeat ZERO (n - length s) ++ s.

End JsString.

Import JsString.

(* ------------------------------------------------------------------ *)
(** ** Regular expressions *)

Module Regex.

(** Every regular expression of the source is a sequence of atoms, each a
    character class under a greedy quantifier, some of them captured:
    a literal character is the class of that character taken once. *)
Record piece : Type := Piece {
  cls : char -> bool;
  lo : nat;
  hi : option nat;
  cap : bool
}.

Definition lit (c : char) : piece := Piece (is_char c) 1 (Some 1) false.
Definition lits (s : jsstring) : list piece := map lit s.

(** [c{lo,hi}], [c+] is [many c 1 None], [c*] is [many c 0 None]. *)
Definition many (c : char -> bool) (lo : nat) (hi : option nat) : piece :=
  Piece c lo hi false.
Definition group (p : piece) : piece := Piece (cls p) (lo p) (hi p) true.

Definition below (n : nat) (hi : option nat) : bool :=
  match hi with
  | None => true
  | Some h => n <? h
  end.

(** The greedy quantifier with backtracking: having taken [n] characters,
    take one more when the class and the upper bound allow and the rest of
    the pattern then succeeds; otherwise stop here, when [lo] is reached. *)
Fixpoint rep {R : Type} (c : char -> bool) (lo : nat) (hi : option nat)
    (n : nat) (s : jsstring) (k : jsstring -> jsstring -> option R)
    : option R :=
  let stop := if lo <=? n then k [] s else None in
  match s with
  | x :: s' =>
      if c x && below n hi then
        match rep c lo hi (S n) s' (fun m rest => k (x :: m) rest) with
        | Some r => Some r
        | None => stop
        end
      else stop
  | [] => stop
  end.

(** Match the pattern at the start of [s]; the result is the captured
    groups in order and the text after the match. *)
Fixpoint match_here (ps : list piece) (s : jsstring) (groups : list jsstring)
    : option (list jsstring * jsstring) :=
  match ps with
  | [] => Some (groups, s)
  | p :: ps' =>
      rep (cls p) (lo p) (hi p) 0 s
        (fun m rest =>
           match_here ps' rest (if cap p then groups ++ [m] else groups))
  end.

(** What [String.prototype.match] (without the [g] flag) returns. *)
Record match_result : Type := MatchResult {
  m_before : jsstring;
  m_groups : list jsstring;
  m_after : jsstring
}.

(** The leftmost position at which the pattern matches. *)
Fixpoint exec_from (ps : list piece) (before : jsstring) (s : jsstring)
    : option match_result :=
  match match_here ps s [] with
  | Some (gs, rest) => Some (MatchResult (rev before) gs rest)
  | None =>
      match s with
      | [] => None
      | x :: s' => exec_from ps (x :: before) s'
      end
  end.

Definition exec (ps : list piece) (s : jsstring) : option match_result :=
  exec_from ps [] s.

(** [s.split(re)] for a pattern that matches no empty string: the text
    before the first match, then the split of the text after it. *)
Fixpoint split_fuel (fuel : nat) (ps : list piece) (s : jsstring)
    : list jsstring :=
  match fuel with
  | 0 => [s]
  | S fuel' =>
      match exec ps s with
      | None => [s]
      | Some r => m_before r :: split_fuel fuel' ps (m_after r)
      end
  end.

Definition split (ps : list piece) (s : jsstring) : list jsstring :=
  split_fuel (length s) ps s.

(** [s.replace(/c/g, '')] for a single character [c]. *)
Definition remove_all (c : char) (s : jsstring) : jsstring :=
  filter (fun x => negb (is_char c x)) s.

(** The declarative reading of a pattern: the text is cut into one chunk
    per atom, each chunk within the atom's class and bounds. *)
Definition within (n : nat) (hi : option nat) : Prop :=
  match hi with
  | None => True
  | Some h => n <= h
  end.

Inductive pmatch : list piece -> jsstring -> list jsstring -> jsstring -> Prop :=
| pm_nil : forall s, pmatch [] s [] s
| pm_cons : forall p ps m s gs rest,
    forallb (cls p) m = true ->
    lo p <= length m ->
    within (length m) (hi p) ->
    pmatch ps s gs rest ->
    pmatch (p :: ps) (m ++ s) (if cap p then m :: gs else gs) rest.

End Regex.

Import Regex.

(* ------------------------------------------------------------------ *)
(** ** DateUtils *)

Module DateUtils.

(** [/(\d{4})\/(\d{1,2})\/(\d{1,2})\s+(\d{1,2}):(\d{1,2}):(\d{1,2})/] *)
Definition DATE_RE : list piece :=
  [ group (many is_digit 4 (Some 4)); lit SLASH;
    group (many is_digit 1 (Some 2)); lit SLASH;
    group (many is_digit 1 (Some 2));
    many is_space 1 None;
    group (many is_digit 1 (Some 2)); lit COLON;
    group (many is_digit 1 (Some 2)); lit COLON;
    group (many is_digit 1 (Some 2)) ].

(** The template literal of [normalize]. *)
Definition format (year month day hour minute second : jsstring) : jsstring :=
  year ++ [SLASH] ++ padStart0 2 month ++ [SLASH] ++ padStart0 2 day
    ++ [SPACE] ++ padStart0 2 hour ++ [COLON] ++ padStart0 2 minute
    ++ [COLON] ++ padStart0 2 second.

(** [DateUtils.normalize].  A group that the destructuring leaves
    undefined would make [padStart] raise a TypeError. *)
Definition normalize (dateString : jsstring) : result jsstring :=
  match exec DATE_RE dateString with
  | None => Ok dateString
  | Some r =>
      match m_groups r with
      | [year; month; day; hour; minute; second] =>
          Ok (format year month day hour minute second)
      | _ => Throw TypeError
      end
  end.

End DateUtils.

Import DateUtils.

(* ------------------------------------------------------------------ *)
(** ** Numbers *)

Module JsNumber.

(** The values [parseInt] can return: NaN, an infinity, or a double that
    is an integer (the sign of zero is not recorded). *)
Inductive number : Type :=
| NaN
| PosInfinity
| NegInfinity
| Num (z : Z).

Definition isNaN (n : number) : bool :=
  match n with
  | NaN => true
  | _ => false
  end.

(** The double nearest to the integer [n >= 0], ties to even: integers
    below [2^53] are doubles; above, the 53 leading bits are kept and the
    rest rounded; from [2^1024] on the result is Infinity. *)
Definition round_double (n : Z) : number :=
  if (n <? 2 ^ 53)%Z then Num n
  else
    let e := (Z.log2 n - 52)%Z in
    let q := (n / 2 ^ e)%Z in
    let r := (n mod 2 ^ e)%Z in
    let half := (2 ^ (e - 1))%Z in
    let q' :=
      if (r <? half)%Z then q
      else if (half <? r)%Z then (q + 1)%Z
      else if Z.even q then q else (q + 1)%Z in
    let v := (q' * 2 ^ e)%Z in
    if (2 ^ 1024 <=? v)%Z then PosInfinity else Num v.

Definition to_number (neg : bool) (n : Z) : number :=
  match round_double n with
  | Num v => Num (if neg then - v else v)
  | PosInfinity => if neg then NegInfinity else PosInfinity
  | other => other
  end.

Definition digit_value (c : char) : Z := Z.of_N (c - 48)%N.

(** The integer a string of decimal digits denotes. *)
Definition math_int (ds : jsstring) : Z :=
  fold_left (fun acc c => (10 * acc + digit_value c)%Z) ds 0%Z.

Fixpoint take_while (p : char -> bool) (s : jsstring) : jsstring :=
  match s with
  | [] => []
  | c :: s' => if p c then c :: take_while p s' else []
  end.

(** [parseInt(s, 10)]: leading white space is skipped, a sign is read,
    then the longest run of decimal digits; no digit gives NaN.  The
    result is the double nearest to the integer read (ECMAScript lets an
    engine zero the digits after the twentieth before rounding; the
    nearest double is what V8 returns). *)
Definition parseInt10 (s : jsstring) : number :=
  let s1 := trim_start s in
  let '(neg, s2) :=
    match s1 with
    | c :: t =>
        if (c =? MINUS)%N then (true, t)
        else if (c =? PLUS)%N then (false, t)
        else (false, s1)
    | [] => (false, s1)
    end in
  match take_while is_digit s2 with
  | [] => NaN
  | ds => to_number neg (math_int ds)
  end.

End JsNumber.

Import JsNumber.

(* ------------------------------------------------------------------ *)
(** ** GmailService.extractDonationDetails *)

Declare Scope result_scope.
Delimit Scope result_scope with result.
Notation "x <- e ;; k" := (rbind e (fun x => k))
  (at level 61, e at next level, right associativity) : result_scope.

Record DonationDetails : Type := Details {
  date : jsstring;
  name : jsstring;
  amount : number;
  frequency : jsstring
}.

Module GmailExtract.

Local Open Scope result_scope.

Definition YEN : char := 20870%N.

Definition is_digit_or_comma (c : char) : bool := is_digit c || is_char COMMA c.

(** [/支援受付日時:\s*(.+)/] *)
Definition P_date : list piece :=
  lits (js "支援受付日時:") ++ [many is_space 0 None; group (many is_dot 1 None)].

(** [/支援付者名:\s*(.+)/] *)
Definition P_name : list piece :=
  lits (js "支援付者名:") ++ [many is_space 0 None; group (many is_dot 1 None)].

(** [/支援金額:\s*([\d,]+)\s*円/] *)
Definition P_amount : list piece :=
  lits (js "支援金額:")
    ++ [many is_space 0 None; group (many is_digit_or_comma 1 None);
        many is_space 0 None; lit YEN].

(** [/支援頻度:\s*(.+)/] *)
Definition P_frequency : list piece :=
  lits (js "支援頻度:") ++ [many is_space 0 None; group (many is_dot 1 None)].

(** [/\s{2,}/] and the separator [' '] *)
Definition P_spaces : list piece := [many is_space 2 None].
Definition P_blank : list piece := [lit SPACE].

(** [m[1]] followed by a method call: an undefined group raises. *)
Definition capture1 (r : match_result) : result jsstring :=
  match nth_error (m_groups r) 0 with
  | Some g => Ok g
  | None => Throw TypeError
  end.

(** [a[0]] followed by a method call. *)
Definition first (a : list jsstring) : result jsstring :=
  match a with
  | x :: _ => Ok x
  | [] => Throw TypeError
  end.

Definition extractDonationDetails (body : jsstring)
    : result (option DonationDetails) :=
  let matches_date := exec P_date body in
  let matches_name := exec P_name body in
  let matches_amount := exec P_amount body in
  let matches_frequency := exec P_frequency body in
  match matches_date, matches_name, matches_amount, matches_frequency with
  | Some m_date, Some m_name, Some m_amount, Some m_frequency =>
      d1 <- capture1 m_date ;;
      let rawDate := trim d1 in
      normalizedDate <- normalize rawDate ;;
      a1 <- capture1 m_amount ;;
      let amountString := trim a1 in
      let amount := parseInt10 (remove_all COMMA amountString) in
      if isNaN amount then Ok None
      else
        n1 <- capture1 m_name ;;
        n0 <- first (split P_spaces n1) ;;
        f1 <- capture1 m_frequency ;;
        f0 <- first (split P_blank f1) ;;
        Ok (Some (Details normalizedDate (trim n0) amount (trim f0)))
  | _, _, _, _ => Ok None
  end.

End GmailExtract.

Import GmailExtract.

(* ------------------------------------------------------------------ *)
(** ** The platform services *)

Record AppConfig : Type := Config {
  slackWebhookUrl : option jsstring;
  spreadsheetId : option jsstring;
  sheetName : option jsstring
}.

Record SlackWorkflowPayload : Type := Payload {
  payload_date : jsstring;
  payload_amount : jsstring;
  payload_frequency : jsstring
}.

(** Handles of host objects. *)
Record GmailMessage : Type := Message { message_id : jsstring }.
Definition GmailThread := nat.
Definition Spreadsheet := nat.
Definition Sheet := nat.
Definition JsDate := nat.

Inductive cell : Type :=
| CellDate (d : JsDate)
| CellString (s : jsstring)
| CellNumber (n : number).

Inductive level : Type := LOG | WARN | ERROR.

(** One constructor per console statement of the source, with the values
    its template interpolates. *)
Inductive console_message : Type :=
| ExtractionFailed (messageId : jsstring)
| MessageFailed (e : exn)
| SlackSent (date : jsstring) (amount : number) (frequency : jsstring)
| SlackFailed (e : exn)
| SheetRecorded (name : jsstring) (amount : number)
| SheetRecordFailed (e : exn)
| SheetUnavailable (e : exn)
| HeaderAdded
| HeaderFailed (e : exn)
| WebhookMissing
| CheckStarted
| CheckDone
| CheckFailed (e : exn)
| Processing (d : DonationDetails)
| Processed (messageId : jsstring)
| ProcessFailed (messageId : jsstring) (e : exn).

(** What the script asks of the platform, in the order it asks.
    [GmailMarkRead id] is the statement
    [GmailApp.getMessageById(id).markRead()]. *)
Inductive event : Type :=
| PropertiesGetScriptProperties
| PropertiesGetProperty (key : jsstring)
| GmailSearch (query : jsstring)
| GmailGetMessagesForThreads (threads : list GmailThread)
| MessageGetPlainBody (m : GmailMessage)
| GmailMarkRead (messageId : jsstring)
| UrlFetch (url : jsstring) (payload : SlackWorkflowPayload)
| SpreadsheetOpenById (id : jsstring)
| SpreadsheetGetSheetByName (ss : Spreadsheet) (name : jsstring)
| SheetGetLastRow (sh : Sheet)
| SheetAppendRow (sh : Sheet) (row : list cell)
| Console (l : level) (m : console_message).

Definition trace := list event.

(** The platform: each service answers a request, or raises, as it sees
    fit given everything that happened before; the property store is
    such a service too. *)
Record Host : Type := {
  getScriptProperties : trace -> result unit;
  getProperty : trace -> jsstring -> result (option jsstring);
  toLocaleString : number -> jsstring;
  newDate : jsstring -> option JsDate;
  search : trace -> jsstring -> result (list GmailThread);
  getMessagesForThreads :
    trace -> list GmailThread -> result (list (list GmailMessage));
  getPlainBody : trace -> GmailMessage -> result jsstring;
  markRead : trace -> jsstring -> result unit;
  fetch : trace -> jsstring -> SlackWorkflowPayload -> result unit;
  openById : trace -> jsstring -> result Spreadsheet;
  getSheetByName : trace -> Spreadsheet -> jsstring -> result (option Sheet);
  getLastRow : trace -> Sheet -> result Z;
  appendRow : trace -> Sheet -> list cell -> result unit
}.

(** Computations: they extend the trace and return or raise; what was
    done before an exception stays done. *)
Definition M (A : Type) : Type := trace -> result A * trace.

Definition ret {A} (a : A) : M A := fun t => (Ok a, t).

Definition bind {A B} (m : M A) (f : A -> M B) : M B :=
  fun t =>
    match m t with
    | (Ok a, t') => f a t'
    | (Throw e, t') => (Throw e, t')
    end.

Definition throw {A} (e : exn) : M A := fun t => (Throw e, t).

Definition try_catch {A} (body : M A) (handler : exn -> M A) : M A :=
  fun t =>
    match body t with
    | (Ok a, t') => (Ok a, t')
    | (Throw e, t') => handler e t'
    end.

(** A request to the platform: the answer depends on the history, and the
    request joins it. *)
Definition request {A} (ev : event) (answer : trace -> result A) : M A :=
  fun t => (answer t, t ++ [ev]).

Definition console (l : level) (m : console_message) : M unit :=
  fun t => (Ok tt, t ++ [Console l m]).

Definition lift {A} (r : result A) : M A := fun t => (r, t).

Declare Scope m_scope.
Delimit Scope m_scope with M.
Notation "x <- e ;; k" := (bind e (fun x => k))
  (at level 61, e at next level, right associativity) : m_scope.
Notation "e ;;; k" := (bind e (fun _ => k))
  (at level 61, right associativity) : m_scope.

Local Open Scope m_scope.

(** [for (const x of xs) body]: an exception leaves the loop. *)
Fixpoint for_of {X} (xs : list X) (body : X -> M unit) : M unit :=
  match xs with
  | [] => ret tt
  | x :: xs' => body x ;;; for_of xs' body
  end.

(** Truthiness of [string | null]. *)
Definition truthy (v : option jsstring) : bool :=
  match v with
  | Some (_ :: _) => true
  | _ => false
  end.

(** *** ConfigService *)
Module ConfigService.
Section WithHost.
Variable host : Host.

Definition property (key : jsstring) : M (option jsstring) :=
  request (PropertiesGetProperty key) (fun t => getProperty host t key).

(** The constructor of [ConfigService] is this call: nothing catches what
    the property store raises. *)
Definition loadConfig : M AppConfig :=
  request PropertiesGetScriptProperties (getScriptProperties host) ;;;
  url <- property (js "SLACK_WEBHOOK_URL") ;;
  id <- property (js "GOOGLE_SHEETS_ID") ;;
  nm <- property (js "GOOGLE_SHEETS_NAME") ;;
  ret (Config url id nm).

End WithHost.

Definition isConfigValid (config : AppConfig) : bool :=
  truthy (slackWebhookUrl config).

Definition isSheetsConfigValid (config : AppConfig) : bool :=
  truthy (spreadsheetId config) && truthy (sheetName config).

End ConfigService.

(** *** GmailService *)
Module GmailService.
Section WithHost.
Variable host : Host.

Definition QUOTE : char := 34%N.

Definition SEARCH_QUERY : jsstring :=
  js "subject:" ++ [QUOTE] ++ js "【Syncable】新規の支援を受け付けました。"
    ++ [QUOTE] ++ js " is:unread".

(** The body of the loop of [processNewDonations], with its try. *)
Definition processMessage
    (onDonationFound : DonationDetails -> jsstring -> M unit)
    (message : GmailMessage) : M unit :=
  try_catch
    (body <- request (MessageGetPlainBody message) (fun t => getPlainBody host t message) ;;
     details <- lift (extractDonationDetails body) ;;
     match details with
     | Some d => onDonationFound d (message_id message)
     | None => console WARN (ExtractionFailed (message_id message))
     end)
    (fun error => console ERROR (MessageFailed error)).

Definition processNewDonations
    (onDonationFound : DonationDetails -> jsstring -> M unit) : M unit :=
  threads <- request (GmailSearch SEARCH_QUERY) (fun t => search host t SEARCH_QUERY) ;;
  nested <- request (GmailGetMessagesForThreads threads)
              (fun t => getMessagesForThreads host t threads) ;;
  let messages := concat nested in
  for_of messages (processMessage onDonationFound).

End WithHost.
End GmailService.

(** [DateUtils.parseDate]: [new Date(s)], or null when its time is NaN;
    [newDate] is that constructor, [None] for an invalid date. *)
Definition parseDate (host : Host) (dateString : jsstring) : option JsDate :=
  newDate host dateString.

(** *** SlackService *)
Module SlackService.

Record t : Type := New { webhookUrl : jsstring }.

Section WithHost.
Variable host : Host.

Definition sendDonationNotification (this : t)
    (date : jsstring) (amount : number) (frequency : jsstring) : M unit :=
  let payload :=
    Payload date (toLocaleString host amount ++ [YEN]) frequency in
  try_catch
    (request (UrlFetch (webhookUrl this) payload)
       (fun t => fetch host t (webhookUrl this) payload) ;;;
     console LOG (SlackSent date amount frequency))
    (fun error => console ERROR (SlackFailed error) ;;; throw error).

End WithHost.
End SlackService.

(** *** SheetsService *)
Module SheetsService.

Record t : Type := New { spreadsheetId : jsstring; sheetName : jsstring }.

Definition HEADERS : list cell :=
  [CellString (js "日時"); CellString (js "寄付者名");
   CellString (js "金額"); CellString (js "頻度")].

Section WithHost.
Variable host : Host.

Definition getSheet (this : t) : M (option Sheet) :=
  try_catch
    (spreadsheet <- request (SpreadsheetOpenById (spreadsheetId this))
                      (fun t => openById host t (spreadsheetId this)) ;;
     request (SpreadsheetGetSheetByName spreadsheet (sheetName this))
       (fun t => getSheetByName host t spreadsheet (sheetName this)))
    (fun error => console ERROR (SheetUnavailable error) ;;; ret None).

Definition recordDonation (this : t)
    (date name : jsstring) (amount : number) (frequency : jsstring) : M unit :=
  try_catch
    (sheet <- getSheet this ;;
     match sheet with
     | None => throw (JsError (js "シートが見つかりません: " ++ sheetName this))
     | Some sh =>
         let dateValue :=
           match parseDate host date with
           | Some parsedDate => CellDate parsedDate
           | None => CellString date
           end in
         let row := [dateValue; CellString name; CellNumber amount;
                     CellString frequency] in
         request (SheetAppendRow sh row) (fun t => appendRow host t sh row) ;;;
         console LOG (SheetRecorded name amount)
     end)
    (fun error => console ERROR (SheetRecordFailed error) ;;; throw error).

Definition ensureHeaders (this : t) : M unit :=
  try_catch
    (sheet <- getSheet this ;;
     match sheet with
     | None => ret tt
     | Some sh =>
         lastRow <- request (SheetGetLastRow sh) (fun t => getLastRow host t sh) ;;
         if (lastRow =? 0)%Z then
           request (SheetAppendRow sh HEADERS)
             (fun t => appendRow host t sh HEADERS) ;;;
           console LOG HeaderAdded
         else ret tt
     end)
    (fun error => console ERROR (HeaderFailed error)).

End WithHost.
End SheetsService.

(** *** DonationNotifierApp *)
Module DonationNotifierApp.

Record t : Type := App {
  config : AppConfig;
  slackService : option SlackService.t;
  sheetsService : option SheetsService.t
}.

Section WithHost.
Variable host : Host.

(** The constructor: [new ConfigService()], then [initializeServices]. *)
Definition initializeServices (config : AppConfig) : M t :=
  let slack :=
    match slackWebhookUrl config with
    | Some (c :: url) => Some (SlackService.New (c :: url))
    | _ => None
    end in
  match spreadsheetId config, sheetName config with
  | Some (c1 :: id), Some (c2 :: nm) =>
      let sheets := SheetsService.New (c1 :: id) (c2 :: nm) in
      SheetsService.ensureHeaders host sheets ;;;
      ret (App config slack (Some sheets))
  | _, _ => ret (App config slack None)
  end.

Definition new : M t :=
  config <- ConfigService.loadConfig host ;;
  initializeServices config.

Definition processDonation (this : t) (details : DonationDetails)
    (messageId : jsstring) : M unit :=
  console LOG (Processing details) ;;;
  try_catch
    (match slackService this with
     | Some slack =>
         SlackService.sendDonationNotification host slack
           (date details) (amount details) (frequency details)
     | None => ret tt
     end ;;;
     match sheetsService this with
     | Some sheets =>
         SheetsService.recordDonation host sheets
           (date details) (name details) (amount details) (frequency details)
     | None => ret tt
     end ;;;
     request (GmailMarkRead messageId) (fun t => markRead host t messageId) ;;;
     console LOG (Processed messageId))
    (fun error => console ERROR (ProcessFailed messageId error)).

Definition checkForNewDonations (this : t) : M unit :=
  if negb (ConfigService.isConfigValid (config this)) then
    console WARN WebhookMissing
  else
    console LOG CheckStarted ;;;
    try_catch
      (GmailService.processNewDonations host
         (fun details messageId => processDonation this details messageId) ;;;
       console LOG CheckDone)
      (fun error => console ERROR (CheckFailed error)).

End WithHost.
End DonationNotifierApp.

(** The global function the scheduler calls. *)
Definition checkForNewDonations (host : Host) : M unit :=
  app <- DonationNotifierApp.new host ;;
  DonationNotifierApp.checkForNewDonations host app.

(* ------------------------------------------------------------------ *)
(** * Vocabulary of the properties *)

(** The text after the chunk does not let the quantifier go on. *)
Definition blocked (c : char -> bool) (hi : option nat) (n : nat)
    (rest : jsstring) : Prop :=
  match rest with
  | [] => True
  | x :: _ => c x = false \/ hi = Some n
  end.

(** A text of the shape the pattern describes. *)
Record timestamp : Type := Timestamp {
  ts_year : jsstring;
  ts_month : jsstring;
  ts_day : jsstring;
  ts_gap : jsstring;
  ts_hour : jsstring;
  ts_minute : jsstring;
  ts_second : jsstring
}.

Definition digits (l h : nat) (s : jsstring) : Prop :=
  forallb is_digit s = true /\ l <= length s /\ length s <= h.

Definition well_formed (ts : timestamp) : Prop :=
  digits 4 4 (ts_year ts) /\ digits 1 2 (ts_month ts)
  /\ digits 1 2 (ts_day ts)
  /\ (forallb is_space (ts_gap ts) = true /\ 1 <= length (ts_gap ts))
  /\ digits 1 2 (ts_hour ts) /\ digits 1 2 (ts_minute ts)
  /\ digits 1 2 (ts_second ts).

Definition text (ts : timestamp) : jsstring :=
  ts_year ts ++ [SLASH] ++ ts_month ts ++ [SLASH] ++ ts_day ts ++ ts_gap ts
    ++ ts_hour ts ++ [COLON] ++ ts_minute ts ++ [COLON] ++ ts_second ts.

Definition fields (ts : timestamp) : list jsstring :=
  [ts_year ts; ts_month ts; ts_day ts; ts_hour ts; ts_minute ts; ts_second ts].

(** The timestamp as [normalize] prints it. *)
Definition padded (ts : timestamp) : jsstring :=
  format (ts_year ts) (ts_month ts) (ts_day ts)
         (ts_hour ts) (ts_minute ts) (ts_second ts).

Definition contains_date (s : jsstring) : Prop :=
  exists pre ts post, well_formed ts /\ s = pre ++ text ts ++ post.

(** A one-digit field with a zero in front, a longer one as it is. *)
Definition two_digits (f : jsstring) : jsstring :=
  match f with
  | [d] => [ZERO; d]
  | _ => f
  end.

(** [YYYY/MM/DD HH:MM:SS] *)
Definition zero_padded (ts : timestamp) : jsstring :=
  ts_year ts ++ [SLASH] ++ two_digits (ts_month ts) ++ [SLASH]
    ++ two_digits (ts_day ts) ++ [SPACE] ++ two_digits (ts_hour ts)
    ++ [COLON] ++ two_digits (ts_minute ts) ++ [COLON]
    ++ two_digits (ts_second ts).

(** The same timestamp with its fields padded and one space between the
    date and the time. *)
Definition canonical (ts : timestamp) : timestamp :=
  Timestamp (ts_year ts) (two_digits (ts_month ts)) (two_digits (ts_day ts))
            [SPACE] (two_digits (ts_hour ts)) (two_digits (ts_minute ts))
            (two_digits (ts_second ts)).

Definition ts_2024 : timestamp :=
  Timestamp (js "2024") (js "3") (js "5") (js " ") (js "9") (js "7") (js "1").

Definition ts_3_spaces : timestamp :=
  Timestamp (js "2024") (js "3") (js "5") (js "   ") (js "9") (js "7") (js "1").

(** The first piece of a split: the text before the first match. *)
Definition first_piece (ps : list piece) (s : jsstring) : jsstring :=
  match exec ps s with
  | None => s
  | Some r => m_before r
  end.

Definition prepend (pre : jsstring) (r : match_result) : match_result :=
  MatchResult (pre ++ m_before r) (m_groups r) (m_after r).

(** The name up to the first two white-space characters in a row. *)
Fixpoint before_space_run (s : jsstring) : jsstring :=
  match s with
  | [] => []
  | a :: s' =>
      match s' with
      | b :: _ => if is_space a && is_space b then [] else a :: before_space_run s'
      | [] => [a]
      end
  end.

(** The text up to the first space. *)
Fixpoint before_blank (s : jsstring) : jsstring :=
  match s with
  | [] => []
  | a :: s' => if (a =? SPACE)%N then [] else a :: before_blank s'
  end.

(** The marks-read and the appended rows among some events. *)
Definition mark_reads (evs : trace) : list jsstring :=
  flat_map (fun ev => match ev with GmailMarkRead i => [i] | _ => [] end) evs.

Definition appended (evs : trace) : list (Sheet * list cell) :=
  flat_map (fun ev => match ev with SheetAppendRow sh r => [(sh, r)] | _ => [] end)
           evs.

(** The events of looking the sheet up. *)
Definition lookup_events (host : Host) (sheets : SheetsService.t) (t : trace)
    : trace :=
  let id := SheetsService.spreadsheetId sheets in
  let nm := SheetsService.sheetName sheets in
  match openById host t id with
  | Throw e => [SpreadsheetOpenById id; Console ERROR (SheetUnavailable e)]
  | Ok ss =>
      match getSheetByName host (t ++ [SpreadsheetOpenById id]) ss nm with
      | Ok _ => [SpreadsheetOpenById id; SpreadsheetGetSheetByName ss nm]
      | Throw e => [SpreadsheetOpenById id; SpreadsheetGetSheetByName ss nm;
                    Console ERROR (SheetUnavailable e)]
      end
  end.

(** The sheet the service finds, if any. *)
Definition sheet_of (host : Host) (sheets : SheetsService.t) (t : trace)
    : option Sheet :=
  match fst (SheetsService.getSheet host sheets t) with
  | Ok o => o
  | Throw _ => None
  end.

(** The sinks of one donation, as [processDonation] calls them. *)
Definition sinks (host : Host) (app : DonationNotifierApp.t)
    (d : DonationDetails) : M unit :=
  (match DonationNotifierApp.slackService app with
   | Some slack =>
       SlackService.sendDonationNotification host slack
         (date d) (amount d) (frequency d)
   | None => ret tt
   end ;;;
   match DonationNotifierApp.sheetsService app with
   | Some sheets =>
       SheetsService.recordDonation host sheets
         (date d) (name d) (amount d) (frequency d)
   | None => ret tt
   end)%M.

(** The four labelled fields are found in the body. *)
Definition all_present (body : jsstring) : Prop :=
  exec P_date body <> None /\ exec P_name body <> None
  /\ exec P_amount body <> None /\ exec P_frequency body <> None.

(** The text the amount pattern captures. *)
Definition amount_text (body : jsstring) : option jsstring :=
  match exec P_amount body with
  | Some r => hd_error (m_groups r)
  | None => None
  end.

(** A decimal numeral. *)
Definition integer_text (s : jsstring) : Prop :=
  s <> [] /\ forallb is_digit s = true.

Definition amount_parses (body : jsstring) : Prop :=
  exists g, amount_text body = Some g /\ integer_text (remove_all COMMA g).

(** ** Sample mails and platforms *)

Definition LF : jsstring := [10%N].

Definition sample_body : jsstring :=
  js "支援受付日時: 2024/3/5 9:7:1" ++ LF
  ++ js "支援付者名: 山田 太郎  (ID: 42)" ++ LF
  ++ js "支援金額: 12,345円" ++ LF
  ++ js "支援頻度: 毎月 (継続)" ++ LF.

Definition sample_details : DonationDetails :=
  Details (js "2024/03/05 09:07:01") (js "山田 太郎") (Num 12345) (js "毎月").

(** The same mail without its frequency line. *)
Definition body_without_frequency : jsstring :=
  js "支援受付日時: 2024/3/5 9:7:1" ++ LF
  ++ js "支援付者名: 山田 太郎  (ID: 42)" ++ LF
  ++ js "支援金額: 12,345円" ++ LF.

(** An amount one above [2^53]. *)
Definition body_above_2_53 : jsstring :=
  js "支援受付日時: 2024/3/5 9:7:1" ++ LF
  ++ js "支援付者名: 山田 太郎" ++ LF
  ++ js "支援金額: 9007199254740993円" ++ LF
  ++ js "支援頻度: 毎月" ++ LF.

(** An amount of 400 digits. *)
Definition body_400_digits : jsstring :=
  js "支援受付日時: 2024/3/5 9:7:1" ++ LF
  ++ js "支援付者名: 山田 太郎" ++ LF
  ++ js "支援金額: " ++ repeat 57%N 400 ++ js "円" ++ LF
  ++ js "支援頻度: 毎月" ++ LF.

Fixpoint str_eqb (a b : jsstring) : bool :=
  match a, b with
  | [], [] => true
  | x :: a', y :: b' => (x =? y)%N && str_eqb a' b'
  | _, _ => false
  end.

Definition is_fetch (ev : event) : bool :=
  match ev with
  | UrlFetch _ _ => true
  | _ => false
  end.

(** A platform with both sinks configured and three unread mails: the
    body of the first cannot be read, the second lacks its frequency, the
    third is complete. *)
Definition demo_host : Host := {|
  getScriptProperties := fun _ => Ok tt;
  getProperty := fun _ key =>
    Ok (if str_eqb key (js "SLACK_WEBHOOK_URL")
        then Some (js "https://hooks.example/w")
        else if str_eqb key (js "GOOGLE_SHEETS_ID") then Some (js "sheet-id")
        else if str_eqb key (js "GOOGLE_SHEETS_NAME") then Some (js "寄付")
        else None);
  toLocaleString := fun n =>
    match n with
    | Num 12345 => js "12,345"
    | _ => js "?"
    end;
  newDate := fun _ => None;
  search := fun _ _ => Ok [0];
  getMessagesForThreads := fun _ _ =>
    Ok [[Message (js "m1"); Message (js "m2")]; [Message (js "m3")]];
  getPlainBody := fun _ m =>
    if str_eqb (message_id m) (js "m1") then Throw (HostError 1)
    else if str_eqb (message_id m) (js "m2") then Ok body_without_frequency
    else Ok sample_body;
  markRead := fun _ _ => Ok tt;
  fetch := fun _ _ _ => Ok tt;
  openById := fun _ _ => Ok 7;
  getSheetByName := fun _ _ _ => Ok (Some 3);
  getLastRow := fun _ _ => Ok 0%Z;
  appendRow := fun _ _ _ => Ok tt
|}.

(** The same platform, whose spreadsheet refuses rows once a notification
    has been posted. *)
Definition failing_sheet_host : Host := {|
  getScriptProperties := getScriptProperties demo_host;
  getProperty := getProperty demo_host;
  toLocaleString := toLocaleString demo_host;
  newDate := newDate demo_host;
  search := search demo_host;
  getMessagesForThreads := getMessagesForThreads demo_host;
  getPlainBody := getPlainBody demo_host;
  markRead := markRead demo_host;
  fetch := fetch demo_host;
  openById := openById demo_host;
  getSheetByName := getSheetByName demo_host;
  getLastRow := getLastRow demo_host;
  appendRow := fun t _ _ => if existsb is_fetch t then Throw (HostError 2) else Ok tt
|}.

(** The same platform without a webhook URL. *)
Definition no_webhook_host : Host := {|
  getScriptProperties := getScriptProperties demo_host;
  getProperty := fun t key =>
    if str_eqb key (js "SLACK_WEBHOOK_URL") then Ok None
    else getProperty demo_host t key;
  toLocaleString := toLocaleString demo_host;
  newDate := newDate demo_host;
  search := search demo_host;
  getMessagesForThreads := getMessagesForThreads demo_host;
  getPlainBody := getPlainBody demo_host;
  markRead := markRead demo_host;
  fetch := fetch demo_host;
  openById := openById demo_host;
  getSheetByName := getSheetByName demo_host;
  getLastRow := getLastRow demo_host;
  appendRow := appendRow demo_host
|}.

Definition fetches (evs : trace) : nat := length (filter is_fetch evs).

Definition searches (evs : trace) : nat :=
  length (filter (fun ev => match ev with GmailSearch _ => true | _ => false end)
                 evs).

Definition sample_row : list cell :=
  [CellString (js "2024/03/05 09:07:01"); CellString (js "山田 太郎");
   CellNumber (Num 12345); CellString (js "毎月")].

Definition ledger_only_app : DonationNotifierApp.t :=
  DonationNotifierApp.App
    (Config None (Some (js "sheet-id")) (Some (js "寄付")))
    None
    (Some (SheetsService.New (js "sheet-id") (js "寄付"))).

(** ** Vocabulary of the further properties *)

(** The messages whose body was asked for, in order. *)
Definition body_reads (evs : trace) : list GmailMessage :=
  flat_map (fun ev => match ev with MessageGetPlainBody m => [m] | _ => [] end)
           evs.

(** Requests to the spreadsheet service, and console output. *)
Definition sheet_event (ev : event) : Prop :=
  match ev with
  | SpreadsheetOpenById _ | SpreadsheetGetSheetByName _ _
  | SheetGetLastRow _ | SheetAppendRow _ _ | Console _ _ => True
  | _ => False
  end.

(** What handling one donation may ask for: the sinks, the mark-read and
    console output; nothing of the scan. *)
Definition donation_event (ev : event) : Prop :=
  match ev with
  | PropertiesGetScriptProperties | PropertiesGetProperty _
  | GmailSearch _ | GmailGetMessagesForThreads _ | MessageGetPlainBody _ => False
  | _ => True
  end.

(** A computation extends the trace, and only with events in [P]. *)
Definition emits {A} (P : event -> Prop) (m : M A) : Prop :=
  forall t, exists r evs, m t = (r, t ++ evs) /\ Forall P evs.

(** [a] is [b] with some elements left out. *)
Inductive subseq {A : Type} : list A -> list A -> Prop :=
| subseq_nil : subseq [] []
| subseq_skip : forall x a b, subseq a b -> subseq a (x :: b)
| subseq_keep : forall x a b, subseq a b -> subseq (x :: a) (x :: b).

(** The row [recordDonation] appends. *)
Definition donation_row (host : Host) (d n : jsstring) (a : number)
    (f : jsstring) : list cell :=
  [match parseDate host d with
   | Some parsed => CellDate parsed
   | None => CellString d
   end;
   CellString n; CellNumber a; CellString f].

(** The error of [recordDonation] when there is no sheet. *)
Definition sheet_not_found (sheets : SheetsService.t) : exn :=
  JsError (js "シートが見つかりません: " ++ SheetsService.sheetName sheets).

(** The trace after the messages [ms] have been processed in turn. *)
Definition after_messages (host : Host)
    (cb : DonationDetails -> jsstring -> M unit)
    (ms : list GmailMessage) (t : trace) : trace :=
  fold_left (fun t' m => snd (GmailService.processMessage host cb m t')) ms t.

(** The same platform, whose spreadsheet cannot be opened. *)
Definition no_spreadsheet_host : Host := {|
  getScriptProperties := getScriptProperties demo_host;
  getProperty := getProperty demo_host;
  toLocaleString := toLocaleString demo_host;
  newDate := newDate demo_host;
  search := search demo_host;
  getMessagesForThreads := getMessagesForThreads demo_host;
  getPlainBody := getPlainBody demo_host;
  markRead := markRead demo_host;
  fetch := fetch demo_host;
  openById := fun _ _ => Throw (HostError 3);
  getSheetByName := getSheetByName demo_host;
  getLastRow := getLastRow demo_host;
  appendRow := appendRow demo_host
|}.

(** The same platform, whose webhook refuses every post. *)
Definition failing_webhook_host : Host := {|
  getScriptProperties := getScriptProperties demo_host;
  getProperty := getProperty demo_host;
  toLocaleString := toLocaleString demo_host;
  newDate := newDate demo_host;
  search := search demo_host;
  getMessagesForThreads := getMessagesForThreads demo_host;
  getPlainBody := getPlainBody demo_host;
  markRead := markRead demo_host;
  fetch := fun _ _ _ => Throw (HostError 4);
  openById := openById demo_host;
  getSheetByName := getSheetByName demo_host;
  getLastRow := getLastRow demo_host;
  appendRow := appendRow demo_host
|}.

(** The same platform with an empty mailbox. *)
Definition empty_mailbox_host : Host := {|
  getScriptProperties := getScriptProperties demo_host;
  getProperty := getProperty demo_host;
  toLocaleString := toLocaleString demo_host;
  newDate := newDate demo_host;
  search := fun _ _ => Ok [];
  getMessagesForThreads := fun _ _ => Ok [];
  getPlainBody := getPlainBody demo_host;
  markRead := markRead demo_host;
  fetch := fetch demo_host;
  openById := openById demo_host;
  getSheetByName := getSheetByName demo_host;
  getLastRow := getLastRow demo_host;
  appendRow := appendRow demo_host
|}.

Definition demo_sheets : SheetsService.t :=
  SheetsService.New (js "sheet-id") (js "寄付").

Definition demo_app : DonationNotifierApp.t :=
  DonationNotifierApp.App
    (Config (Some (js "https://hooks.example/w")) (Some (js "sheet-id"))
            (Some (js "寄付")))
    (Some (SlackService.New (js "https://hooks.example/w")))
    (Some demo_sheets).

Definition demo_messages : list GmailMessage :=
  [Message (js "m1"); Message (js "m2"); Message (js "m3")].

(** Two white-space characters in a row somewhere in [s]. *)
Definition has_space_run (s : jsstring) : Prop :=
  exists pre a b post,
    s = pre ++ a :: b :: post /\ is_space a = true /\ is_space b = true.

(** No white space at either end. *)
Definition trimmed (s : jsstring) : Prop :=
  (forall x s', s = x :: s' -> is_space x = false)
  /\ (forall x s', s = s' ++ [x] -> is_space x = false).

(** A finite amount that is not negative, or +Infinity. *)
Definition amount_shape (a : number) : Prop :=
  match a with
  | Num z => (0 <= z)%Z
  | PosInfinity => True
  | _ => False
  end.

Definition ts_12_seconds : timestamp :=
  Timestamp (js "2024") (js "3") (js "5") (js " ") (js "9") (js "7") (js "12").

(** [l] is at the start of [s]. *)
Fixpoint prefixb (l s : jsstring) : bool :=
  match l, s with
  | [], _ => true
  | x :: l', y :: s' => (x =? y)%N && prefixb l' s'
  | _ :: _, [] => false
  end.

(** In [pre ++ l], the text [l] begins nowhere before the end of [pre]. *)
Fixpoint label_first (l pre : jsstring) : bool :=
  match pre with
  | [] => true
  | _ :: pre' => negb (prefixb l (pre ++ l)) && label_first l pre'
  end.

(** The end of a line: the end of the text, or a line terminator. *)
Definition line_end (s : jsstring) : Prop :=
  match s with
  | [] => True
  | x :: _ => is_line_terminator x = true
  end.

(** The shape of the date, name and frequency patterns: the label,
    [\s*], [(.+)]. *)
Definition labelled (l : jsstring) : list piece :=
  lits l ++ [many is_space 0 None; group (many is_dot 1 None)].

(** A mail whose name line is empty. *)
Definition body_with_empty_name : jsstring :=
  js "支援受付日時: 2024/3/5 9:7:1" ++ LF
  ++ js "支援付者名:" ++ LF
  ++ js "支援金額: 1,000円".


(** Requests to the property store. *)
Definition property_event (ev : event) : Prop :=
  match ev with
  | PropertiesGetScriptProperties | PropertiesGetProperty _ => True
  | _ => False
  end.

(** The same platform, whose property store cannot be read. *)
Definition failing_properties_host : Host := {|
  getScriptProperties := fun _ => Throw (HostError 5);
  getProperty := getProperty demo_host;
  toLocaleString := toLocaleString demo_host;
  newDate := newDate demo_host;
  search := search demo_host;
  getMessagesForThreads := getMessagesForThreads demo_host;
  getPlainBody := getPlainBody demo_host;
  markRead := markRead demo_host;
  fetch := fetch demo_host;
  openById := openById demo_host;
  getSheetByName := getSheetByName demo_host;
  getLastRow := getLastRow demo_host;
  appendRow := appendRow demo_host
|}.

(* ------------------------------------------------------------------ *)
(** * Properties of the matcher *)

Section RepLemmas.

Context {R : Type}.
Variable c : char -> bool.
Variable lo : nat.
Variable hi : option nat.

Lemma below_within n : below n hi = true -> within (S n) hi.
Proof.
  unfold below, within. destruct hi; [|trivial].
  rewrite Nat.ltb_lt. lia.
Qed.

Lemma within_below n k : within (n + S k) hi -> below n hi = true.
Proof.
  unfold below, within. destruct hi; [|trivial].
  rewrite Nat.ltb_lt. lia.
Qed.

(** Whatever [rep] returns comes from its continuation, called on a chunk
    of the class within the bounds. *)
Lemma rep_sound : forall s n (k : jsstring -> jsstring -> option R) r,
  within n hi ->
  rep c lo hi n s k = Some r ->
  exists m rest,
    s = m ++ rest /\ forallb c m = true /\ lo <= n + length m
    /\ within (n + length m) hi /\ k m rest = Some r.
Proof.
  induction s as [|x s IH]; intros n k r Hn H; simpl in H.
  - destruct (lo <=? n) eqn:E; [|discriminate].
    apply Nat.leb_le in E.
    exists [], []. simpl. rewrite Nat.add_0_r. auto.
  - assert (Hstop : (if lo <=? n then k [] (x :: s) else None) = Some r ->
              exists m rest, x :: s = m ++ rest /\ forallb c m = true
                /\ lo <= n + length m /\ within (n + length m) hi
                /\ k m rest = Some r).
    { intros H0. destruct (lo <=? n) eqn:E; [|discriminate].
      apply Nat.leb_le in E.
      exists [], (x :: s). simpl. rewrite Nat.add_0_r. auto. }
    destruct (c x && below n hi) eqn:Ec; [|auto].
    apply andb_prop in Ec. destruct Ec as [Ecx Eb].
    destruct (rep c lo hi (S n) s (fun m rest => k (x :: m) rest)) eqn:Er;
      [|auto].
    inversion H; subst r0.
    apply IH in Er; [|apply below_within; exact Eb].
    destruct Er as (m & rest & -> & Hm & Hlo & Hhi & Hk).
    exists (x :: m), rest. simpl. rewrite Ecx, Hm.
    replace (n + S (length m)) with (S n + length m) by lia. auto.
Qed.

(** When the pattern can stop here, [rep] finds some match. *)
Lemma rep_stop : forall s n (k : jsstring -> jsstring -> option R) r,
  lo <= n -> k [] s = Some r -> exists r', rep c lo hi n s k = Some r'.
Proof.
  intros s n k r Hlo Hk.
  apply Nat.leb_le in Hlo.
  destruct s as [|x s]; simpl; rewrite Hlo; [eauto|].
  destruct (c x && below n hi); [|eauto].
  destruct (rep c lo hi (S n) s _); eauto.
Qed.

Lemma rep_complete : forall m n rest (k : jsstring -> jsstring -> option R) r,
  forallb c m = true ->
  lo <= n + length m ->
  within (n + length m) hi ->
  k m rest = Some r ->
  exists r', rep c lo hi n (m ++ rest) k = Some r'.
Proof.
  induction m as [|x m IH]; intros n rest k r Hc Hlo Hhi Hk; simpl in *.
  - rewrite Nat.add_0_r in Hlo. eapply rep_stop; eauto.
  - apply andb_prop in Hc. destruct Hc as [Hx Hm].
    rewrite Hx, (within_below _ _ Hhi). simpl.
    destruct (IH (S n) rest (fun m0 rest0 => k (x :: m0) rest0) r) as [r' Hr'];
      auto; try (replace (S n + length m) with (n + S (length m)) by lia; auto).
    rewrite Hr'. eauto.
Qed.

(** Greedy: when the longest chunk lets the rest of the pattern succeed,
    that is the match. *)
Lemma rep_greedy : forall m n rest (k : jsstring -> jsstring -> option R) r,
  forallb c m = true ->
  lo <= n + length m ->
  within (n + length m) hi ->
  blocked c hi (n + length m) rest ->
  k m rest = Some r ->
  rep c lo hi n (m ++ rest) k = Some r.
Proof.
  induction m as [|x m IH]; intros n rest k r Hc Hlo Hhi Hb Hk; simpl in *.
  - rewrite Nat.add_0_r in *. apply Nat.leb_le in Hlo.
    destruct rest as [|y rest]; simpl; rewrite Hlo; [exact Hk|].
    destruct Hb as [Hy | Hn].
    + rewrite Hy. exact Hk.
    + rewrite Hn. simpl. rewrite Nat.ltb_irrefl, andb_false_r. exact Hk.
  - apply andb_prop in Hc. destruct Hc as [Hx Hm].
    rewrite Hx, (within_below _ _ Hhi). simpl.
    rewrite (IH (S n) rest (fun m0 rest0 => k (x :: m0) rest0) r); auto;
      replace (S n + length m) with (n + S (length m)) by lia; auto.
Qed.

End RepLemmas.

Lemma pmatch_suffix ps s gs rest :
  pmatch ps s gs rest -> exists w, s = w ++ rest.
Proof.
  induction 1 as [s | p ps m s gs rest _ _ _ _ [w ->]].
  - exists []. reflexivity.
  - exists (m ++ w). now rewrite app_assoc.
Qed.

Lemma match_here_sound : forall ps s g0 g rest,
  match_here ps s g0 = Some (g, rest) ->
  exists gs, g = g0 ++ gs /\ pmatch ps s gs rest.
Proof.
  induction ps as [|p ps IH]; intros s g0 g rest H; simpl in H.
  - inversion H; subst. exists []. rewrite app_nil_r. split; [auto|constructor].
  - apply rep_sound in H; [|destruct (hi p); simpl; lia].
    destruct H as (m & s' & -> & Hm & Hlo & Hhi & Hk).
    apply IH in Hk. destruct Hk as (gs & -> & Hp).
    exists (if cap p then m :: gs else gs). split.
    + destruct (cap p); [rewrite <- app_assoc|]; reflexivity.
    + constructor; auto.
Qed.

Lemma match_here_complete ps s gs rest :
  pmatch ps s gs rest -> forall g0, exists r, match_here ps s g0 = Some r.
Proof.
  induction 1 as [s | p ps m s gs rest Hm Hlo Hhi _ IH]; intros g0; simpl.
  - eauto.
  - destruct (IH (if cap p then g0 ++ [m] else g0)) as [r Hr].
    eapply rep_complete; eauto.
Qed.

Lemma exec_from_sound : forall ps s before r,
  exec_from ps before s = Some r ->
  exists mid,
    rev before ++ s = m_before r ++ mid
    /\ pmatch ps mid (m_groups r) (m_after r).
Proof.
  induction s as [|x s IH]; intros before r H; simpl in H.
  - destruct (match_here ps [] []) as [[gs rest]|] eqn:E; [|discriminate].
    inversion H; subst; simpl.
    apply match_here_sound in E. destruct E as (gs' & -> & Hp). eauto.
  - destruct (match_here ps (x :: s) []) as [[gs rest]|] eqn:E.
    + inversion H; subst; simpl.
      apply match_here_sound in E. destruct E as (gs' & -> & Hp). eauto.
    + apply IH in H. destruct H as (mid & Heq & Hp).
      exists mid. split; [|exact Hp].
      rewrite <- Heq. simpl. now rewrite <- app_assoc.
Qed.

Lemma exec_sound ps s r :
  exec ps s = Some r ->
  exists mid, s = m_before r ++ mid /\ pmatch ps mid (m_groups r) (m_after r).
Proof. intros H. apply exec_from_sound in H. exact H. Qed.

Lemma exec_from_complete : forall ps pre mid gs rest before,
  pmatch ps mid gs rest ->
  exists r, exec_from ps before (pre ++ mid) = Some r.
Proof.
  induction pre as [|x pre IH]; intros mid gs rest before Hp.
  - destruct (match_here_complete _ _ _ _ Hp []) as [[g r] Hr].
    destruct mid; simpl; rewrite Hr; eauto.
  - simpl. destruct (match_here ps (x :: pre ++ mid) []) as [[g r]|]; eauto.
Qed.

Lemma exec_complete ps pre mid gs rest :
  pmatch ps mid gs rest -> exists r, exec ps (pre ++ mid) = Some r.
Proof. apply exec_from_complete. Qed.

(* ------------------------------------------------------------------ *)
(** * The date pattern, read declaratively *)

Lemma pm_lit ps c s gs rest :
  pmatch ps s gs rest -> pmatch (lit c :: ps) (c :: s) gs rest.
Proof.
  intros H.
  change (pmatch (lit c :: ps) ([c] ++ s)
            (if cap (lit c) then [c] :: gs else gs) rest).
  apply pm_cons; simpl; auto.
  unfold is_char. now rewrite N.eqb_refl.
Qed.

Lemma pm_many ps c l h m s gs rest :
  forallb c m = true -> l <= length m -> within (length m) h ->
  pmatch ps s gs rest -> pmatch (many c l h :: ps) (m ++ s) gs rest.
Proof.
  intros Hc Hl Hh H.
  change (pmatch (many c l h :: ps) (m ++ s)
            (if cap (many c l h) then m :: gs else gs) rest).
  apply pm_cons; auto.
Qed.

Lemma pm_group ps c l h m s gs rest :
  forallb c m = true -> l <= length m -> within (length m) h ->
  pmatch ps s gs rest ->
  pmatch (group (many c l h) :: ps) (m ++ s) (m :: gs) rest.
Proof.
  intros Hc Hl Hh H.
  change (pmatch (group (many c l h) :: ps) (m ++ s)
            (if cap (group (many c l h)) then m :: gs else gs) rest).
  apply pm_cons; auto.
Qed.

Lemma lit_chunk c m :
  forallb (is_char c) m = true -> 1 <= length m -> length m <= 1 -> m = [c].
Proof.
  destruct m as [|x [|y m]]; simpl; intros Hc H1 H2; try lia.
  rewrite andb_true_r in Hc. unfold is_char in Hc.
  apply N.eqb_eq in Hc. now subst.
Qed.

Lemma digit_not_space c : is_digit c = true -> is_space c = false.
Proof.
  unfold is_digit, is_space. intros H.
  apply andb_prop in H. destruct H as [H1 H2].
  apply N.leb_le in H1. apply N.leb_le in H2.
  repeat match goal with
  | |- context [(c =? ?k)%N] =>
      replace (c =? k)%N with false by (symmetry; apply N.eqb_neq; lia)
  end.
  replace (8192 <=? c)%N with false by (symmetry; apply N.leb_gt; lia).
  reflexivity.
Qed.

Lemma space_not_digit c : is_space c = true -> is_digit c = false.
Proof.
  intros H. destruct (is_digit c) eqn:E; [|reflexivity].
  apply digit_not_space in E. congruence.
Qed.

Ltac inv_piece H :=
  let H' := fresh "H" in
  inversion H as [| ? ? ? ? ? ? ? ? ? H']; subst; clear H; simpl in *;
  rename H' into H.

Lemma pmatch_date mid gs rest :
  pmatch DATE_RE mid gs rest ->
  exists ts, well_formed ts /\ mid = text ts ++ rest /\ gs = fields ts.
Proof.
  unfold DATE_RE. intros H.
  do 11 inv_piece H.
  inversion H; subst; clear H.
  repeat match goal with
  | Hc : forallb (is_char ?c) ?m = true, H1 : 1 <= length ?m,
    H2 : length ?m <= 1 |- _ =>
      pose proof (lit_chunk _ _ Hc H1 H2); subst m; clear Hc H1 H2
  end.
  match goal with
  | |- context [ ?y ++ [SLASH] ++ ?mo ++ [SLASH] ++ ?d ++ ?g ++ ?h ++ [COLON]
                 ++ ?mi ++ [COLON] ++ ?se ++ rest ] =>
      exists (Timestamp y mo d g h mi se)
  end.
  unfold well_formed, digits, text, fields; simpl.
  repeat (rewrite <- app_assoc; simpl).
  repeat split; auto.
Qed.

Lemma date_pmatch ts rest :
  well_formed ts -> pmatch DATE_RE (text ts ++ rest) (fields ts) rest.
Proof.
  unfold well_formed, digits, text, fields, DATE_RE.
  intros (Hy & Hmo & Hd & Hg & Hh & Hmi & Hse).
  repeat rewrite <- app_assoc. simpl.
  apply pm_group; try tauto.
  apply pm_lit.
  apply pm_group; try tauto.
  apply pm_lit.
  apply pm_group; try tauto.
  apply pm_many; simpl; try tauto.
  apply pm_group; try tauto.
  apply pm_lit.
  apply pm_group; try tauto.
  apply pm_lit.
  apply pm_group; try tauto.
  constructor.
Qed.

Lemma blocked_full c n rest : blocked c (Some n) n rest.
Proof. destruct rest; simpl; auto. Qed.

Lemma blocked_head c h n m rest :
  forallb (fun x => negb (c x)) m = true -> 1 <= length m ->
  blocked c h n (m ++ rest).
Proof.
  destruct m as [|x m]; simpl; [lia|]. intros H _.
  apply andb_prop in H. destruct H as [H _].
  left. now destruct (c x).
Qed.

Lemma rep_lit {R} c s (k : jsstring -> jsstring -> option R) r :
  k [c] s = Some r -> rep (is_char c) 1 (Some 1) 0 (c :: s) k = Some r.
Proof.
  intros H. change (c :: s) with ([c] ++ s).
  apply rep_greedy; simpl; auto.
  - unfold is_char. now rewrite N.eqb_refl.
  - apply blocked_full.
Qed.

Lemma digits_not_space s :
  forallb is_digit s = true -> forallb (fun x => negb (is_space x)) s = true.
Proof.
  induction s as [|x s IH]; simpl; [auto|]. intros H.
  apply andb_prop in H. destruct H as [Hx Hs].
  now rewrite (digit_not_space _ Hx), IH.
Qed.

Lemma spaces_not_digit s :
  forallb is_space s = true -> forallb (fun x => negb (is_digit x)) s = true.
Proof.
  induction s as [|x s IH]; simpl; [auto|]. intros H.
  apply andb_prop in H. destruct H as [Hx Hs].
  now rewrite (space_not_digit _ Hx), IH.
Qed.

(** On a well-formed timestamp the pattern matches at once, each group
    taking its whole field, provided the seconds cannot be read longer. *)
Lemma match_here_date ts post :
  well_formed ts ->
  blocked is_digit (Some 2) (length (ts_second ts)) post ->
  match_here DATE_RE (text ts ++ post) [] = Some (fields ts, post).
Proof.
  unfold well_formed, digits, text, fields, DATE_RE.
  intros (Hy & Hmo & Hd & Hg & Hh & Hmi & Hse) Hpost.
  repeat (rewrite <- app_assoc; simpl).
  assert (length (ts_year ts) = 4) as Hy4 by lia.
  apply rep_greedy;
    [tauto | simpl; lia | simpl; lia | rewrite Hy4; now left | ].
  apply rep_lit.
  apply rep_greedy; [tauto | simpl; lia | simpl; lia | now left | ].
  apply rep_lit.
  apply rep_greedy; [tauto | simpl; lia | simpl; lia | | ].
  { apply blocked_head; [apply spaces_not_digit|]; tauto. }
  apply rep_greedy; [tauto | simpl; lia | exact I | | ].
  { apply blocked_head; [apply digits_not_space|]; tauto. }
  apply rep_greedy; [tauto | simpl; lia | simpl; lia | now left | ].
  apply rep_lit.
  apply rep_greedy; [tauto | simpl; lia | simpl; lia | now left | ].
  apply rep_lit.
  apply rep_greedy; [tauto | simpl; lia | simpl; lia | exact Hpost | ].
  reflexivity.
Qed.

Lemma exec_here ps s gs rest :
  match_here ps s [] = Some (gs, rest) ->
  exec ps s = Some (MatchResult [] gs rest).
Proof.
  intros H. unfold exec. destruct s; simpl; rewrite H; reflexivity.
Qed.

Lemma exec_date ts post :
  well_formed ts ->
  blocked is_digit (Some 2) (length (ts_second ts)) post ->
  exec DATE_RE (text ts ++ post) = Some (MatchResult [] (fields ts) post).
Proof.
  intros Hw Hb. apply exec_here, match_here_date; assumption.
Qed.

Lemma normalize_text ts post :
  well_formed ts ->
  blocked is_digit (Some 2) (length (ts_second ts)) post ->
  normalize (text ts ++ post) = Ok (padded ts).
Proof.
  intros Hw Hb. unfold normalize. rewrite (exec_date _ _ Hw Hb). reflexivity.
Qed.

(* ------------------------------------------------------------------ *)
(** * DateUtils.normalize *)

Lemma padStart0_two_digits f :
  1 <= length f -> padStart0 2 f = two_digits f.
Proof.
  destruct f as [|a [|b f]]; simpl; intros H; [lia | reflexivity | reflexivity].
Qed.

Lemma two_digits_digits f : digits 1 2 f -> digits 2 2 (two_digits f).
Proof.
  unfold digits. destruct f as [|a [|b [|c f]]]; simpl; intros (H & H1 & H2);
    try lia; repeat split; auto.
Qed.

Lemma two_digits_idem f : two_digits (two_digits f) = two_digits f.
Proof. destruct f as [|a [|b f]]; reflexivity. Qed.

Lemma padded_zero_padded ts :
  well_formed ts -> padded ts = zero_padded ts.
Proof.
  unfold well_formed, digits, padded, zero_padded, format.
  intros (_ & Hmo & Hd & _ & Hh & Hmi & Hse).
  rewrite !padStart0_two_digits by tauto. reflexivity.
Qed.

Lemma canonical_well_formed ts : well_formed ts -> well_formed (canonical ts).
Proof.
  unfold well_formed. intros (Hy & Hmo & Hd & _ & Hh & Hmi & Hse). simpl.
  repeat match goal with
  | H : digits 1 2 _ |- _ => apply two_digits_digits in H
  end.
  unfold digits in *. repeat split; try tauto; try lia.
Qed.

Lemma text_canonical ts : text (canonical ts) = zero_padded ts.
Proof. reflexivity. Qed.

Lemma zero_padded_canonical ts : zero_padded (canonical ts) = zero_padded ts.
Proof.
  unfold zero_padded. simpl. now rewrite !two_digits_idem.
Qed.

Lemma zero_padded_length ts : well_formed ts -> length (zero_padded ts) = 19.
Proof.
  intros (Hy & Hmo & Hd & _ & Hh & Hmi & Hse).
  repeat match goal with
  | H : digits 1 2 _ |- _ => apply two_digits_digits in H
  end.
  unfold zero_padded. rewrite !length_app. unfold digits in *. simpl. lia.
Qed.

(** What [normalize] does with a text in which the pattern matches. *)
Lemma normalize_match s r :
  exec DATE_RE s = Some r ->
  exists ts,
    well_formed ts /\ s = m_before r ++ text ts ++ m_after r
    /\ normalize s = Ok (zero_padded ts).
Proof.
  intros E. unfold normalize. rewrite E.
  apply exec_sound in E. destruct E as (mid & Hs & Hp).
  apply pmatch_date in Hp. destruct Hp as (ts & Hw & -> & Hg).
  exists ts. rewrite Hg. simpl. fold (padded ts).
  rewrite (padded_zero_padded _ Hw). auto.
Qed.

Lemma contains_date_exec s : contains_date s -> exec DATE_RE s <> None.
Proof.
  intros (pre & ts & post & Hw & ->).
  destruct (exec_complete DATE_RE pre (text ts ++ post) (fields ts) post
              (date_pmatch ts post Hw)) as [r Hr].
  congruence.
Qed.

Lemma exec_contains_date s r : exec DATE_RE s = Some r -> contains_date s.
Proof.
  intros E. apply normalize_match in E. destruct E as (ts & Hw & Hs & _).
  exists (m_before r), ts, (m_after r). auto.
Qed.

Lemma normalize_zero_padded ts :
  well_formed ts -> normalize (zero_padded ts) = Ok (zero_padded ts).
Proof.
  intros Hw. rewrite <- text_canonical.
  rewrite <- (app_nil_r (text (canonical ts))).
  rewrite normalize_text.
  - rewrite app_nil_r, padded_zero_padded, zero_padded_canonical, text_canonical;
      auto using canonical_well_formed.
  - now apply canonical_well_formed.
  - exact I.
Qed.

(** C5: a text of the shape [YYYY/M/D H:M:S], with one or two digits in
    the month, day, hour, minute and second, is normalised to the same
    timestamp with these five fields zero-padded to two digits, 19
    characters in all. *)
Theorem normalize_pads_fields ts :
  well_formed ts ->
  normalize (text ts) = Ok (zero_padded ts) /\ length (zero_padded ts) = 19.
Proof.
  intros Hw. split; [|now apply zero_padded_length].
  rewrite <- (app_nil_r (text ts)).
  rewrite normalize_text; [|assumption|exact I].
  now rewrite padded_zero_padded.
Qed.

Lemma ts_2024_well_formed : well_formed ts_2024.
Proof.
  unfold well_formed, digits; simpl. repeat split; try reflexivity; lia.
Defined.

Lemma normalize_pads_fields_witness :
  normalize (js "2024/3/5 9:7:1") = Ok (js "2024/03/05 09:07:01").
Proof.
  exact (proj1 (normalize_pads_fields ts_2024 ts_2024_well_formed)).
Defined.

(** C6: normalising twice is normalising once, for every string. *)
Theorem normalize_idempotent s :
  rbind (normalize s) normalize = normalize s.
Proof.
  destruct (exec DATE_RE s) as [r|] eqn:E.
  - destruct (normalize_match s r E) as (ts & Hw & _ & ->). simpl.
    now apply normalize_zero_padded.
  - assert (Hs : normalize s = Ok s) by (unfold normalize; now rewrite E).
    rewrite Hs. simpl. exact Hs.
Qed.

(** C7: a string no part of which has the shape of a timestamp is
    returned as it is; [normalize] raises nothing. *)
Theorem normalize_unmatched s :
  ~ contains_date s -> normalize s = Ok s.
Proof.
  intros H. unfold normalize.
  destruct (exec DATE_RE s) as [r|] eqn:E; [|reflexivity].
  exfalso. apply H. eapply exec_contains_date; eassumption.
Qed.

Lemma normalize_unmatched_witness :
  normalize (js "not a date") = Ok (js "not a date").
Proof.
  apply normalize_unmatched.
  intros H. apply contains_date_exec in H. apply H.
  vm_compute. reflexivity.
Defined.

(** C10: when a timestamp occurs inside a longer text, the result is only
    that timestamp, reformatted: the text before and after it is gone, and
    whatever white space separated date and time is one space. *)
Theorem normalize_drops_context s :
  contains_date s ->
  exists pre ts post,
    well_formed ts /\ s = pre ++ text ts ++ post
    /\ normalize s = Ok (zero_padded ts)
    /\ length (zero_padded ts) = 19.
Proof.
  intros H. apply contains_date_exec in H.
  destruct (exec DATE_RE s) as [r|] eqn:E; [|congruence].
  destruct (normalize_match s r E) as (ts & Hw & Hs & Hn).
  exists (m_before r), ts, (m_after r).
  auto using zero_padded_length.
Qed.

Lemma normalize_drops_context_witness :
  (exists pre ts post,
     well_formed ts
     /\ js "受付: 2024/3/5   9:7:1 JST" = pre ++ text ts ++ post
     /\ normalize (js "受付: 2024/3/5   9:7:1 JST") = Ok (zero_padded ts)
     /\ length (zero_padded ts) = 19)
  /\ normalize (js "受付: 2024/3/5   9:7:1 JST") = Ok (js "2024/03/05 09:07:01").
Proof.
  split; [|vm_compute; reflexivity].
  apply normalize_drops_context.
  exists (js "受付: "), ts_3_spaces, (js " JST").
  split; [|vm_compute; reflexivity].
  unfold well_formed, digits; simpl. repeat split; try reflexivity; lia.
Defined.

(* ------------------------------------------------------------------ *)
(** * Extraction *)

Lemma exec_from_before : forall ps s before,
  exec_from ps before s = option_map (prepend (rev before)) (exec ps s).
Proof.
  unfold exec. induction s as [|x s IH]; intros before; simpl.
  - destruct (match_here ps [] []) as [[gs rest]|]; simpl; [|reflexivity].
    unfold prepend; simpl. now rewrite app_nil_r.
  - destruct (match_here ps (x :: s) []) as [[gs rest]|]; simpl.
    + unfold prepend; simpl. now rewrite app_nil_r.
    + rewrite (IH (x :: before)), (IH [x]).
      destruct (exec_from ps [] s); simpl; [|reflexivity].
      unfold prepend; simpl. now rewrite <- app_assoc.
Qed.

Lemma exec_cons ps x s :
  match_here ps (x :: s) [] = None ->
  exec ps (x :: s) = option_map (prepend [x]) (exec ps s).
Proof.
  intros H. unfold exec at 1. simpl. rewrite H.
  now rewrite exec_from_before.
Qed.

Lemma first_piece_cons ps x s :
  match_here ps (x :: s) [] = None ->
  first_piece ps (x :: s) = x :: first_piece ps s.
Proof.
  intros H. unfold first_piece. rewrite (exec_cons _ _ _ H).
  destruct (exec ps s); reflexivity.
Qed.

Lemma first_piece_here ps s gs rest :
  match_here ps s [] = Some (gs, rest) -> first_piece ps s = [].
Proof.
  intros H. unfold first_piece. now rewrite (exec_here _ _ _ _ H).
Qed.

Lemma exec_nil_before ps r : exec ps [] = Some r -> m_before r = [].
Proof.
  unfold exec; simpl.
  destruct (match_here ps [] []) as [[gs rest]|]; [|discriminate].
  intros H. now inversion H.
Qed.

Lemma split_first ps s : first (split ps s) = Ok (first_piece ps s).
Proof.
  unfold split, first_piece. destruct s as [|x s]; simpl.
  - destruct (exec ps []) as [r|] eqn:E; [|reflexivity].
    now rewrite (exec_nil_before _ _ E).
  - destruct (exec ps (x :: s)); reflexivity.
Qed.

Lemma match_here_spaces s :
  match_here P_spaces s [] <> None <->
  exists a b s', s = a :: b :: s' /\ is_space a && is_space b = true.
Proof.
  unfold P_spaces. simpl. split.
  - intros H.
    destruct (rep is_space 2 None 0 s (fun _ rest => Some ([], rest)))
      as [r|] eqn:E; [|congruence].
    apply rep_sound in E; [|exact I].
    destruct E as (m & rest & -> & Hm & Hlo & _ & _).
    destruct m as [|a [|b m]]; simpl in *; try lia.
    exists a, b, (m ++ rest). split; [reflexivity|].
    apply andb_prop in Hm. destruct Hm as [Ha Hm].
    apply andb_prop in Hm. destruct Hm as [Hb _].
    now rewrite Ha, Hb.
  - intros (a & b & s' & -> & Hab).
    apply andb_prop in Hab. destruct Hab as [Ha Hb].
    destruct (rep_complete is_space 2 None [a; b] 0 s'
                (fun _ rest => Some (@nil jsstring, rest)) ([], s'))
      as [r Hr]; simpl; auto.
    + now rewrite Ha, Hb.
    + simpl in Hr. rewrite Hr. congruence.
Qed.

Lemma first_piece_spaces s : first_piece P_spaces s = before_space_run s.
Proof.
  induction s as [|a s IH].
  - unfold first_piece. destruct (exec P_spaces []) eqn:E; [|reflexivity].
    now apply exec_nil_before in E.
  - destruct (match_here P_spaces (a :: s) []) as [[gs rest]|] eqn:E.
    + rewrite (first_piece_here _ _ _ _ E).
      assert (H : match_here P_spaces (a :: s) [] <> None) by congruence.
      apply match_here_spaces in H.
      destruct H as (a' & b & s' & Heq & Hab). inversion Heq; subst.
      simpl. now rewrite Hab.
    + rewrite (first_piece_cons _ _ _ E), IH.
      destruct s as [|b s]; [reflexivity|].
      simpl. destruct (is_space a && is_space b) eqn:Hab; [|reflexivity].
      exfalso.
      assert (H : match_here P_spaces (a :: b :: s) [] <> None)
        by (apply match_here_spaces; eauto).
      congruence.
Qed.

Lemma first_piece_blank s : first_piece P_blank s = before_blank s.
Proof.
  induction s as [|a s IH].
  - unfold first_piece. destruct (exec P_blank []) eqn:E; [|reflexivity].
    now apply exec_nil_before in E.
  - simpl. destruct (a =? SPACE)%N eqn:Ha.
    + apply N.eqb_eq in Ha. subst a.
      apply (first_piece_here _ _ [] s). unfold P_blank.
      cbn [match_here lit cls lo hi cap]. now apply rep_lit.
    + rewrite first_piece_cons, IH; [reflexivity|].
      unfold P_blank, lit. simpl. unfold is_char at 1. rewrite Ha. reflexivity.
Qed.

Lemma pmatch_lits : forall l ps s gs rest,
  pmatch (lits l ++ ps) s gs rest ->
  exists s', s = l ++ s' /\ pmatch ps s' gs rest.
Proof.
  induction l as [|c l IH]; intros ps s gs rest H; simpl in H.
  - exists s. auto.
  - inv_piece H.
    match goal with
    | Hc : forallb (is_char c) ?m = true, H1 : 1 <= length ?m,
      H2 : length ?m <= 1 |- _ =>
        pose proof (lit_chunk _ _ Hc H1 H2); subst m
    end.
    apply IH in H. destruct H as (s' & -> & H).
    exists s'. auto.
Qed.

(** A labelled field: the label, optional white space, the captured text. *)
Lemma pmatch_labelled c l mid gs rest :
  pmatch (lits l ++ [many is_space 0 None; group (many c 1 None)]) mid gs rest ->
  exists ws g,
    gs = [g] /\ mid = l ++ ws ++ g ++ rest
    /\ forallb is_space ws = true /\ forallb c g = true /\ 1 <= length g.
Proof.
  intros H. apply pmatch_lits in H. destruct H as (s' & -> & H).
  do 2 inv_piece H. inversion H; subst; clear H.
  eauto 10.
Qed.

Lemma pmatch_amount mid gs rest :
  pmatch P_amount mid gs rest ->
  exists g, gs = [g] /\ forallb is_digit_or_comma g = true /\ 1 <= length g.
Proof.
  unfold P_amount. intros H.
  apply pmatch_lits in H. destruct H as (s' & -> & H).
  do 4 inv_piece H. inversion H; subst; clear H.
  eauto.
Qed.

Lemma drop_while_head p s :
  match s with [] => True | x :: _ => p x = false end -> drop_while p s = s.
Proof. destruct s as [|x s]; simpl; [auto|]. now intros ->. Qed.

Lemma trim_no_space s :
  forallb (fun x => negb (is_space x)) s = true -> trim s = s.
Proof.
  intros H. unfold trim, trim_start, trim_end.
  assert (Hh : forall l, forallb (fun x => negb (is_space x)) l = true ->
                match l with [] => True | x :: _ => is_space x = false end).
  { intros [|x l]; simpl; [auto|]. intros Hx.
    apply andb_prop in Hx. destruct Hx as [Hx _]. now destruct (is_space x). }
  rewrite (drop_while_head _ s (Hh _ H)).
  rewrite drop_while_head; [apply rev_involutive|].
  apply Hh. rewrite forallb_forall in *. intros x Hx. apply H.
  now apply in_rev.
Qed.

Lemma digit_or_comma_not_space g :
  forallb is_digit_or_comma g = true ->
  forallb (fun x => negb (is_space x)) g = true.
Proof.
  induction g as [|x g IH]; simpl; [auto|]. intros H.
  apply andb_prop in H. destruct H as [Hx Hg]. rewrite (IH Hg), andb_true_r.
  unfold is_digit_or_comma in Hx. apply orb_prop in Hx. destruct Hx as [Hx | Hx].
  - now rewrite (digit_not_space _ Hx).
  - unfold is_char in Hx. apply N.eqb_eq in Hx. subst x. reflexivity.
Qed.

Lemma remove_commas_digits g :
  forallb is_digit_or_comma g = true ->
  forallb is_digit (remove_all COMMA g) = true.
Proof.
  induction g as [|x g IH]; simpl; [auto|]. intros H.
  apply andb_prop in H. destruct H as [Hx Hg].
  destruct (is_char COMMA x) eqn:Ec; simpl; [auto|].
  unfold is_digit_or_comma in Hx. rewrite Ec, orb_false_r in Hx.
  now rewrite Hx, IH.
Qed.

Lemma take_while_all p s : forallb p s = true -> take_while p s = s.
Proof.
  induction s as [|x s IH]; simpl; [auto|]. intros H.
  apply andb_prop in H. destruct H as [Hx Hs]. now rewrite Hx, IH.
Qed.

Lemma to_number_pos n : to_number false n = round_double n.
Proof. unfold to_number. now destruct (round_double n). Qed.

Lemma round_double_not_nan n : isNaN (round_double n) = false.
Proof.
  unfold round_double. destruct (n <? 2 ^ 53)%Z; [reflexivity|].
  cbv zeta.
  match goal with |- context [if ?b then PosInfinity else _] => destruct b end;
    reflexivity.
Qed.

Lemma round_double_exact n : (n <= 2 ^ 53)%Z -> round_double n = Num n.
Proof.
  intros H. destruct (Z.eq_dec n (2 ^ 53)) as [-> | Hne].
  - vm_compute. reflexivity.
  - unfold round_double.
    destruct (Z.ltb_spec n (2 ^ 53)); [reflexivity | lia].
Qed.

Lemma math_int_nonneg ds : (0 <= math_int ds)%Z.
Proof.
  unfold math_int.
  assert (H : forall acc, (0 <= acc)%Z ->
            (0 <= fold_left (fun a c => (10 * a + digit_value c)%Z) ds acc)%Z).
  { induction ds as [|x ds IH]; cbn [fold_left]; intros acc Hacc;
      [exact Hacc|].
    apply IH. unfold digit_value.
    pose proof (N2Z.is_nonneg (x - 48)). lia. }
  apply H. lia.
Qed.

(** [parseInt] of a string of digits. *)
Lemma parseInt10_digits ds :
  forallb is_digit ds = true ->
  parseInt10 ds = match ds with
                  | [] => NaN
                  | _ => round_double (math_int ds)
                  end.
Proof.
  destruct ds as [|x ds]; [reflexivity|]. intros H.
  unfold parseInt10, trim_start.
  assert (Hx : is_digit x = true) by (simpl in H; now apply andb_prop in H).
  rewrite drop_while_head by (simpl; now apply digit_not_space).
  unfold is_digit in Hx. apply andb_prop in Hx. destruct Hx as [H1 H2].
  apply N.leb_le in H1. apply N.leb_le in H2.
  replace (x =? MINUS)%N with false
    by (symmetry; apply N.eqb_neq; unfold MINUS; lia).
  replace (x =? PLUS)%N with false
    by (symmetry; apply N.eqb_neq; unfold PLUS; lia).
  rewrite (take_while_all _ _ H). apply to_number_pos.
Qed.

Lemma normalize_total s : exists t, normalize s = Ok t.
Proof.
  destruct (exec DATE_RE s) as [r|] eqn:E.
  - destruct (normalize_match s r E) as (ts & _ & _ & ->). eauto.
  - unfold normalize. rewrite E. eauto.
Qed.

Lemma exec_labelled c l body r :
  exec (lits l ++ [many is_space 0 None; group (many c 1 None)]) body = Some r ->
  exists g, m_groups r = [g] /\ forallb c g = true /\ 1 <= length g.
Proof.
  intros E. apply exec_sound in E. destruct E as (mid & _ & Hp).
  apply pmatch_labelled in Hp. destruct Hp as (ws & g & Hg & _ & _ & Hc & Hl).
  eauto.
Qed.

Lemma exec_amount body r :
  exec P_amount body = Some r ->
  exists g, m_groups r = [g] /\ forallb is_digit_or_comma g = true
            /\ 1 <= length g.
Proof.
  intros E. apply exec_sound in E. destruct E as (mid & _ & Hp).
  now apply pmatch_amount in Hp.
Qed.

(** What extraction returns when the four patterns match. *)
Lemma extract_matched body md mn ma mf :
  exec P_date body = Some md -> exec P_name body = Some mn ->
  exec P_amount body = Some ma -> exec P_frequency body = Some mf ->
  exists gd gn ga gf nd,
    m_groups md = [gd] /\ m_groups mn = [gn] /\ m_groups ma = [ga]
    /\ m_groups mf = [gf]
    /\ forallb is_digit (remove_all COMMA ga) = true
    /\ normalize (trim gd) = Ok nd
    /\ extractDonationDetails body
       = Ok (match remove_all COMMA ga with
             | [] => None
             | ds => Some (Details nd (trim (before_space_run gn))
                             (round_double (math_int ds))
                             (trim (before_blank gf)))
             end).
Proof.
  intros Ed En Ea Ef.
  unfold extractDonationDetails. rewrite Ed, En, Ea, Ef.
  apply exec_labelled in Ed. destruct Ed as (gd & Hgd & _).
  apply exec_labelled in En. destruct En as (gn & Hgn & _).
  apply exec_labelled in Ef. destruct Ef as (gf & Hgf & _).
  apply exec_amount in Ea. destruct Ea as (ga & Hga & Hdc & _).
  destruct (normalize_total (trim gd)) as [nd Hnd].
  exists gd, gn, ga, gf, nd.
  pose proof (remove_commas_digits _ Hdc) as Hds.
  repeat (split; [assumption|]).
  unfold capture1. rewrite Hgd, Hgn, Hga, Hgf. simpl.
  rewrite Hnd. simpl.
  rewrite (trim_no_space ga) by now apply digit_or_comma_not_space.
  rewrite (parseInt10_digits _ Hds).
  destruct (remove_all COMMA ga) as [|x ds] eqn:Eds; [reflexivity|].
  rewrite round_double_not_nan.
  rewrite !split_first. simpl.
  now rewrite first_piece_spaces, first_piece_blank.
Qed.

(* ------------------------------------------------------------------ *)
(** * The services *)

Ltac unfold_m :=
  unfold bind, try_catch, request, console, throw, ret, lift in *.

Ltac trace_norm := repeat (rewrite <- app_assoc; simpl).

Ltac case_oracle :=
  match goal with
  | |- context [match ?x with Ok _ => _ | Throw _ => _ end] =>
      destruct x eqn:?
  | |- context [match ?x with Some _ => _ | None => _ end] =>
      destruct x eqn:?
  | |- context [if ?x then _ else _] =>
      destruct x eqn:?
  end.

Section Services.

Variable host : Host.

Lemma send_run slack d a f t :
  let url := SlackService.webhookUrl slack in
  let payload := Payload d (toLocaleString host a ++ [YEN]) f in
  SlackService.sendDonationNotification host slack d a f t
  = match fetch host t url payload with
    | Ok _ => (Ok tt, t ++ [UrlFetch url payload; Console LOG (SlackSent d a f)])
    | Throw e =>
        (Throw e, t ++ [UrlFetch url payload; Console ERROR (SlackFailed e)])
    end.
Proof.
  unfold SlackService.sendDonationNotification. unfold_m. cbv zeta.
  case_oracle; trace_norm; reflexivity.
Qed.

Lemma getSheet_run sheets t :
  exists o, SheetsService.getSheet host sheets t
            = (Ok o, t ++ lookup_events host sheets t).
Proof.
  unfold SheetsService.getSheet, lookup_events. unfold_m. cbv zeta.
  repeat case_oracle; trace_norm; eauto.
Qed.


Lemma lookup_events_quiet sheets t :
  mark_reads (lookup_events host sheets t) = []
  /\ appended (lookup_events host sheets t) = [].
Proof.
  unfold lookup_events. cbv zeta. repeat case_oracle; auto.
Qed.

End Services.

Section Orchestration.

Variable host : Host.

Lemma mark_reads_app a b : mark_reads (a ++ b) = mark_reads a ++ mark_reads b.
Proof. apply flat_map_app. Qed.

Lemma appended_app a b : appended (a ++ b) = appended a ++ appended b.
Proof. apply flat_map_app. Qed.

Lemma record_run sheets d n a f t :
  exists r evs,
    SheetsService.recordDonation host sheets d n a f t = (r, t ++ evs)
    /\ mark_reads evs = [].
Proof.
  unfold SheetsService.recordDonation. unfold_m.
  destruct (getSheet_run host sheets t) as [o ->].
  destruct (lookup_events_quiet host sheets t) as [Hq _].
  destruct o as [sh|]; repeat case_oracle; trace_norm;
    eexists; eexists; (split; [reflexivity|]);
    rewrite mark_reads_app, Hq; reflexivity.
Qed.

Lemma ensureHeaders_run sheets t :
  exists evs,
    SheetsService.ensureHeaders host sheets t = (Ok tt, t ++ evs)
    /\ appended evs
       = match sheet_of host sheets t with
         | Some sh =>
             match getLastRow host (t ++ lookup_events host sheets t) sh with
             | Ok 0%Z => [(sh, SheetsService.HEADERS)]
             | _ => []
             end
         | None => []
         end.
Proof.
  unfold SheetsService.ensureHeaders, sheet_of. unfold_m.
  destruct (getSheet_run host sheets t) as [o ->].
  destruct (lookup_events_quiet host sheets t) as [_ Hq]. simpl.
  destruct o as [sh|].
  - destruct (getLastRow host (t ++ lookup_events host sheets t) sh)
      as [[|p|p]|e];
      simpl; repeat case_oracle; trace_norm;
      eexists; (split; [reflexivity|]);
      rewrite appended_app, Hq; reflexivity.
  - exists (lookup_events host sheets t). auto.
Qed.

Lemma initializeServices_ok config t :
  exists app t',
    DonationNotifierApp.initializeServices host config t = (Ok app, t').
Proof.
  unfold DonationNotifierApp.initializeServices. unfold_m.
  destruct (spreadsheetId config) as [[|c1 id]|];
    destruct (sheetName config) as [[|c2 nm]|]; eauto.
  destruct (ensureHeaders_run (SheetsService.New (c1 :: id) (c2 :: nm)) t)
    as (evs & -> & _).
  eauto.
Qed.



Lemma sinks_run app d t :
  exists r evs, sinks host app d t = (r, t ++ evs) /\ mark_reads evs = [].
Proof.
  unfold sinks. unfold_m.
  destruct (DonationNotifierApp.slackService app) as [slack|].
  - rewrite send_run. cbv zeta.
    destruct (fetch host t _ _) as [[]|e].
    + destruct (DonationNotifierApp.sheetsService app) as [sheets|].
      * match goal with
        | |- context [SheetsService.recordDonation host ?s ?a ?b ?c ?e ?t0] =>
            destruct (record_run s a b c e t0) as (r & evs & -> & Hm)
        end.
        eexists; eexists. trace_norm. split; [reflexivity|]. exact Hm.
      * eexists; eexists. split; reflexivity.
    + eexists; eexists. split; reflexivity.
  - destruct (DonationNotifierApp.sheetsService app) as [sheets|].
    + apply record_run.
    + exists (Ok tt), []. now rewrite app_nil_r.
Qed.

(** C1: [processDonation] issues the mark-read of its message exactly once
    when the configured sinks return, and not at all when one of them
    raises; either way it returns normally, and what the sinks did stays
    in the trace. *)
Theorem processDonation_marks_read_iff_sinks_succeed app d messageId t :
  let t0 := t ++ [Console LOG (Processing d)] in
  exists sink_evs tail,
    snd (sinks host app d t0) = t0 ++ sink_evs
    /\ mark_reads sink_evs = []
    /\ DonationNotifierApp.processDonation host app d messageId t
       = (Ok tt, t0 ++ sink_evs ++ tail)
    /\ mark_reads tail
       = match fst (sinks host app d t0) with
         | Ok _ => [messageId]
         | Throw _ => []
         end.
Proof.
  intros t0.
  destruct (sinks_run app d t0) as (r & evs & Hs & Hm).
  exists evs.
  assert (Hp : DonationNotifierApp.processDonation host app d messageId t
               = match sinks host app d t0 with
                 | (Ok _, t1) =>
                     match markRead host t1 messageId with
                     | Ok _ => (Ok tt, t1 ++ [GmailMarkRead messageId;
                                               Console LOG (Processed messageId)])
                     | Throw e => (Ok tt, t1 ++ [GmailMarkRead messageId;
                                    Console ERROR (ProcessFailed messageId e)])
                     end
                 | (Throw e, t1) =>
                     (Ok tt, t1 ++ [Console ERROR (ProcessFailed messageId e)])
                 end).
  { unfold DonationNotifierApp.processDonation, sinks. unfold_m. fold t0.
    destruct (DonationNotifierApp.slackService app) as [slack|];
      destruct (DonationNotifierApp.sheetsService app) as [sheets|];
      cbv beta iota;
      repeat match goal with
      | |- context [SlackService.sendDonationNotification host ?s ?a ?b ?c ?t1] =>
          destruct (SlackService.sendDonationNotification host s a b c t1)
            as [[[]|?] ?]
      | |- context [SheetsService.recordDonation host ?s ?a ?b ?c ?e ?t1] =>
          destruct (SheetsService.recordDonation host s a b c e t1)
            as [[[]|?] ?]
      | |- context [markRead host ?t1 ?i] =>
          destruct (markRead host t1 i) as [[]|?]
      end;
      trace_norm; reflexivity. }
  rewrite Hp, Hs. simpl.
  destruct r as [[]|e].
  - destruct (markRead host (t0 ++ evs) messageId) as [[]|e3];
      eexists; trace_norm; repeat split; auto.
  - eexists; trace_norm; repeat split; auto.
Qed.

End Orchestration.

(* ------------------------------------------------------------------ *)
(** * The scan *)

Lemma extract_cases body :
  extractDonationDetails body = Ok None
  \/ exists d, extractDonationDetails body = Ok (Some d)
               /\ all_present body /\ amount_parses body.
Proof.
  destruct (exec P_date body) as [md|] eqn:Ed;
    [|left; unfold extractDonationDetails; now rewrite Ed].
  destruct (exec P_name body) as [mn|] eqn:En;
    [|left; unfold extractDonationDetails; now rewrite Ed, En].
  destruct (exec P_amount body) as [ma|] eqn:Ea;
    [|left; unfold extractDonationDetails; now rewrite Ed, En, Ea].
  destruct (exec P_frequency body) as [mf|] eqn:Ef;
    [|left; unfold extractDonationDetails; now rewrite Ed, En, Ea, Ef].
  destruct (extract_matched body md mn ma mf Ed En Ea Ef)
    as (gd & gn & ga & gf & nd & _ & _ & Hga & _ & Hds & _ & ->).
  destruct (remove_all COMMA ga) as [|x ds] eqn:Eds; [now left|].
  right. eexists. split; [reflexivity|]. split.
  - unfold all_present. rewrite Ed, En, Ea, Ef. repeat split; congruence.
  - exists ga. unfold amount_text, integer_text. rewrite Ea, Hga, Eds.
    repeat split; [congruence | exact Hds].
Qed.

Lemma processMessage_skip host cb message t body :
  getPlainBody host t message = Ok body ->
  extractDonationDetails body = Ok None ->
  GmailService.processMessage host cb message t
  = (Ok tt, t ++ [MessageGetPlainBody message;
                  Console WARN (ExtractionFailed (message_id message))]).
Proof.
  intros Hb He. unfold GmailService.processMessage. unfold_m.
  rewrite Hb, He. trace_norm. reflexivity.
Qed.

(** C3: extraction returns details only when the four labelled patterns
    match and the captured amount, commas removed, is a decimal numeral;
    otherwise it returns nothing, the message only gets a warning (the
    callback is not called, nothing is marked read); extraction never
    raises. *)
Theorem extraction_skips_incomplete body :
  (forall e, extractDonationDetails body <> Throw e)
  /\ (forall d, extractDonationDetails body = Ok (Some d) ->
        all_present body /\ amount_parses body)
  /\ (~ all_present body \/ ~ amount_parses body ->
        extractDonationDetails body = Ok None)
  /\ (extractDonationDetails body = Ok None ->
        forall host cb message t,
          getPlainBody host t message = Ok body ->
          GmailService.processMessage host cb message t
          = (Ok tt, t ++ [MessageGetPlainBody message;
                          Console WARN (ExtractionFailed (message_id message))])).
Proof.
  destruct (extract_cases body) as [H | (d & H & Hp & Ha)]; rewrite H.
  - split; [discriminate|]. split; [discriminate|]. split; [reflexivity|].
    intros _ host cb message t Hb. now apply processMessage_skip with body.
  - split; [discriminate|]. split; [intros; now split|].
    split; [intros [Hn | Hn]; contradiction | discriminate].
Qed.

Lemma processMessage_ok host cb m t :
  fst (GmailService.processMessage host cb m t) = Ok tt.
Proof.
  unfold GmailService.processMessage. unfold_m.
  destruct (getPlainBody host t m) as [body|e]; [|reflexivity].
  destruct (extractDonationDetails body) as [[d|]|e]; try reflexivity.
  destruct (cb d (message_id m) (t ++ [MessageGetPlainBody m])) as [[[]|e] t'];
    reflexivity.
Qed.

Lemma for_of_processMessage host cb ms : forall t,
  for_of ms (GmailService.processMessage host cb) t
  = (Ok tt, fold_left (fun t' m => snd (GmailService.processMessage host cb m t'))
                      ms t).
Proof.
  induction ms as [|m ms IH]; intros t; simpl; [reflexivity|].
  unfold bind. pose proof (processMessage_ok host cb m t) as Hm.
  destruct (GmailService.processMessage host cb m t) as [r t'].
  simpl in *. subst r. apply IH.
Qed.

Lemma app_check_ok host app t :
  fst (DonationNotifierApp.checkForNewDonations host app t) = Ok tt.
Proof.
  unfold DonationNotifierApp.checkForNewDonations.
  destruct (negb _); [reflexivity|]. unfold_m.
  match goal with
  | |- context [GmailService.processNewDonations host ?cb ?t0] =>
      destruct (GmailService.processNewDonations host cb t0) as [[[]|e] t']
  end; reflexivity.
Qed.

(** C2: without a webhook URL (absent, or empty) the run is one warning:
    no search, no sink, no mark-read, whether or not the spreadsheet is
    configured. *)
Theorem checkForNewDonations_disabled host app t :
  ConfigService.isConfigValid (DonationNotifierApp.config app) = false ->
  DonationNotifierApp.checkForNewDonations host app t
  = (Ok tt, t ++ [Console WARN WebhookMissing]).
Proof.
  intros H. unfold DonationNotifierApp.checkForNewDonations.
  rewrite H. reflexivity.
Qed.

(** C4, as the code has it: the name is the captured text before the
    first run of two white-space characters, trimmed; the frequency is
    the captured text before the first space, trimmed; the amount is the
    double nearest to the integer the captured digits denote, which is
    that integer, and not negative, up to [2^53]. *)
Theorem extracted_fields body d :
  extractDonationDetails body = Ok (Some d) ->
  exists mn ma mf gn ga gf,
    exec P_name body = Some mn /\ m_groups mn = [gn]
    /\ exec P_amount body = Some ma /\ m_groups ma = [ga]
    /\ exec P_frequency body = Some mf /\ m_groups mf = [gf]
    /\ name d = trim (before_space_run gn)
    /\ frequency d = trim (before_blank gf)
    /\ amount d = round_double (math_int (remove_all COMMA ga))
    /\ (0 <= math_int (remove_all COMMA ga))%Z
    /\ ((math_int (remove_all COMMA ga) <= 2 ^ 53)%Z ->
        amount d = Num (math_int (remove_all COMMA ga))).
Proof.
  intros H.
  destruct (exec P_date body) as [md|] eqn:Ed;
    [|unfold extractDonationDetails in H; rewrite Ed in H; discriminate].
  destruct (exec P_name body) as [mn|] eqn:En;
    [|unfold extractDonationDetails in H; rewrite Ed, En in H; discriminate].
  destruct (exec P_amount body) as [ma|] eqn:Ea;
    [|unfold extractDonationDetails in H; rewrite Ed, En, Ea in H; discriminate].
  destruct (exec P_frequency body) as [mf|] eqn:Ef;
    [|unfold extractDonationDetails in H; rewrite Ed, En, Ea, Ef in H;
      discriminate].
  destruct (extract_matched body md mn ma mf Ed En Ea Ef)
    as (gd & gn & ga & gf & nd & _ & Hgn & Hga & Hgf & _ & _ & He).
  rewrite He in H.
  destruct (remove_all COMMA ga) as [|x ds] eqn:Eds; [discriminate|].
  inversion H; subst d; clear H. simpl.
  exists mn, ma, mf, gn, ga, gf. rewrite Eds.
  repeat (split; [first [assumption | reflexivity]|]).
  split; [apply math_int_nonneg | apply round_double_exact].
Qed.

(* ------------------------------------------------------------------ *)
(** * Concrete runs *)

Example js_label :
  js "支援受付日時:" = [25903; 25588; 21463; 20184; 26085; 26178; 58]%N.
Proof. vm_compute. reflexivity. Qed.

Example extract_sample :
  extractDonationDetails sample_body = Ok (Some sample_details).
Proof. vm_compute. reflexivity. Qed.

Example extract_amount_overflow :
  exists d, extractDonationDetails body_400_digits = Ok (Some d)
            /\ amount d = PosInfinity.
Proof. eexists. split; vm_compute; reflexivity. Qed.

(** The whole run: the first mail is logged, the second skipped, the
    third notified, recorded and marked read. *)
Example demo_run :
  let '(r, t) := checkForNewDonations demo_host [] in
  r = Ok tt
  /\ mark_reads t = [js "m3"]
  /\ fetches t = 1
  /\ appended t = [(3, SheetsService.HEADERS); (3, sample_row)].
Proof. vm_compute. repeat split. Qed.

(** The record fails after the notification: the mail stays unread and
    the notification stays sent. *)
Example failing_sheet_run :
  let '(r, t) := checkForNewDonations failing_sheet_host [] in
  r = Ok tt
  /\ mark_reads t = []
  /\ fetches t = 1
  /\ appended t = [(3, SheetsService.HEADERS); (3, sample_row)].
Proof. vm_compute. repeat split. Qed.

(** Without a webhook URL the entry point only maintains the header. *)
Example no_webhook_run :
  let '(r, t) := checkForNewDonations no_webhook_host [] in
  r = Ok tt
  /\ mark_reads t = []
  /\ fetches t = 0
  /\ searches t = 0
  /\ appended t = [(3, SheetsService.HEADERS)].
Proof. vm_compute. repeat split. Qed.

Lemma checkForNewDonations_disabled_witness :
  DonationNotifierApp.checkForNewDonations demo_host ledger_only_app []
  = (Ok tt, [Console WARN WebhookMissing]).
Proof.
  apply (checkForNewDonations_disabled demo_host ledger_only_app []).
  reflexivity.
Defined.

Lemma extraction_skips_incomplete_witness :
  extractDonationDetails body_without_frequency = Ok None.
Proof.
  apply (proj1 (proj2 (proj2 (extraction_skips_incomplete body_without_frequency)))).
  left. intros (_ & _ & _ & H). apply H. vm_compute. reflexivity.
Defined.

Lemma extracted_fields_witness :
  exists mn ma mf gn ga gf,
    exec P_name sample_body = Some mn /\ m_groups mn = [gn]
    /\ exec P_amount sample_body = Some ma /\ m_groups ma = [ga]
    /\ exec P_frequency sample_body = Some mf /\ m_groups mf = [gf]
    /\ name sample_details = trim (before_space_run gn)
    /\ frequency sample_details = trim (before_blank gf)
    /\ amount sample_details = round_double (math_int (remove_all COMMA ga))
    /\ (0 <= math_int (remove_all COMMA ga))%Z
    /\ ((math_int (remove_all COMMA ga) <= 2 ^ 53)%Z ->
        amount sample_details = Num (math_int (remove_all COMMA ga))).
Proof.
  apply (extracted_fields sample_body sample_details).
  vm_compute. reflexivity.
Defined.

(** The digits [9007199254740993] are captured, and the amount is
    [9007199254740992]. *)
Lemma amount_above_2_53_is_rounded :
  exists d,
    extractDonationDetails body_above_2_53 = Ok (Some d)
    /\ amount_text body_above_2_53 = Some (js "9007199254740993")
    /\ math_int (remove_all COMMA (js "9007199254740993")) = 9007199254740993%Z
    /\ amount d = Num 9007199254740992
    /\ amount d <> Num (math_int (remove_all COMMA (js "9007199254740993"))).
Proof.
  exists (Details (js "2024/03/05 09:07:01") (js "山田 太郎")
                  (Num 9007199254740992) (js "毎月")).
  split; [vm_compute; reflexivity|].
  split; [vm_compute; reflexivity|].
  split; [vm_compute; reflexivity|].
  split; [reflexivity|].
  vm_compute. discriminate.
Qed.

(* ------------------------------------------------------------------ *)
(** * Further properties: what each computation may ask of the platform *)

Section Emits.

Context {A B : Type}.
Variable P : event -> Prop.

Lemma emits_ret (a : A) : emits P (ret a).
Proof. intros t. exists (Ok a), []. now rewrite app_nil_r. Qed.

Lemma emits_throw (e : exn) : emits P (@throw A e).
Proof. intros t. exists (Throw e), []. now rewrite app_nil_r. Qed.

Lemma emits_lift (r : result A) : emits P (lift r).
Proof. intros t. exists r, []. now rewrite app_nil_r. Qed.

Lemma emits_request ev (answer : trace -> result A) :
  P ev -> emits P (request ev answer).
Proof. intros H t. exists (answer t), [ev]. auto. Qed.

Lemma emits_bind (m : M A) (f : A -> M B) :
  emits P m -> (forall a, emits P (f a)) -> emits P (bind m f).
Proof.
  intros Hm Hf t. unfold bind.
  destruct (Hm t) as (r & evs & -> & Hevs).
  destruct r as [a|e].
  - destruct (Hf a (t ++ evs)) as (r' & evs' & -> & Hevs').
    exists r', (evs ++ evs'). rewrite app_assoc. split; [reflexivity|].
    apply Forall_app; auto.
  - exists (Throw e), evs. auto.
Qed.

Lemma emits_try_catch (body : M A) (handler : exn -> M A) :
  emits P body -> (forall e, emits P (handler e)) ->
  emits P (try_catch body handler).
Proof.
  intros Hm Hh t. unfold try_catch.
  destruct (Hm t) as (r & evs & -> & Hevs).
  destruct r as [a|e].
  - exists (Ok a), evs. auto.
  - destruct (Hh e (t ++ evs)) as (r' & evs' & -> & Hevs').
    exists r', (evs ++ evs'). rewrite app_assoc. split; [reflexivity|].
    apply Forall_app; auto.
Qed.

End Emits.

Lemma emits_console P l m : P (Console l m) -> emits P (console l m).
Proof. intros H t. exists (Ok tt), [Console l m]. auto. Qed.

Lemma emits_for_of {X} P (body : X -> M unit) xs :
  (forall x, emits P (body x)) -> emits P (for_of xs body).
Proof.
  intros H. induction xs as [|x xs IH]; simpl.
  - apply emits_ret.
  - apply emits_bind; auto.
Qed.

Lemma emits_weaken {A} (P Q : event -> Prop) (m : M A) :
  (forall ev, P ev -> Q ev) -> emits P m -> emits Q m.
Proof.
  intros H Hm t. destruct (Hm t) as (r & evs & -> & Hevs).
  exists r, evs. split; [reflexivity|].
  eapply Forall_impl; eauto.
Qed.

Ltac emits_step :=
  first
    [ apply emits_ret | apply emits_throw | apply emits_lift
    | apply emits_console; exact I
    | apply emits_request; exact I
    | apply emits_try_catch; [|intros ?]
    | apply emits_bind; [|intros ?] ].

Lemma getSheet_emits host sheets :
  emits sheet_event (SheetsService.getSheet host sheets).
Proof. unfold SheetsService.getSheet. repeat emits_step. Qed.

Lemma ensureHeaders_emits host sheets :
  emits sheet_event (SheetsService.ensureHeaders host sheets).
Proof.
  unfold SheetsService.ensureHeaders.
  apply emits_try_catch; [|intros e; repeat emits_step].
  apply emits_bind; [apply getSheet_emits|]. intros [sh|]; [|apply emits_ret].
  apply emits_bind; [repeat emits_step|]. intros lastRow.
  destruct (lastRow =? 0)%Z; repeat emits_step.
Qed.

Lemma recordDonation_emits host sheets d n a f :
  emits sheet_event (SheetsService.recordDonation host sheets d n a f).
Proof.
  unfold SheetsService.recordDonation.
  apply emits_try_catch; [|intros e; repeat emits_step].
  apply emits_bind; [apply getSheet_emits|].
  intros [sh|]; repeat emits_step.
Qed.

Lemma sheet_event_donation ev : sheet_event ev -> donation_event ev.
Proof. destruct ev; simpl; auto. Qed.

Lemma processDonation_emits host app d messageId :
  emits donation_event (DonationNotifierApp.processDonation host app d messageId).
Proof.
  unfold DonationNotifierApp.processDonation.
  apply emits_bind; [repeat emits_step|]. intros _.
  apply emits_try_catch; [|intros e; repeat emits_step].
  apply emits_bind.
  { destruct (DonationNotifierApp.slackService app) as [slack|];
      [|apply emits_ret].
    unfold SlackService.sendDonationNotification. cbv zeta. repeat emits_step. }
  intros _. apply emits_bind.
  { destruct (DonationNotifierApp.sheetsService app) as [sheets|];
      [|apply emits_ret].
    eapply emits_weaken; [apply sheet_event_donation|].
    apply recordDonation_emits. }
  intros _. repeat emits_step.
Qed.

(* ------------------------------------------------------------------ *)
(** * Further properties: the constructor *)

(** X1: the constructor keeps the configuration it read and builds each
    service exactly when its capability predicate holds, from the
    configured values: the Slack service when [isConfigValid], the sheets
    service when [isSheetsConfigValid]; an empty string counts as
    absent. *)
Theorem services_follow_config host t app t' :
  DonationNotifierApp.new host t = (Ok app, t') ->
  fst (ConfigService.loadConfig host t) = Ok (DonationNotifierApp.config app)
  /\ (ConfigService.isConfigValid (DonationNotifierApp.config app) = true
      <-> DonationNotifierApp.slackService app <> None)
  /\ (ConfigService.isSheetsConfigValid (DonationNotifierApp.config app) = true
      <-> DonationNotifierApp.sheetsService app <> None)
  /\ (forall slack,
        DonationNotifierApp.slackService app = Some slack ->
        slackWebhookUrl (DonationNotifierApp.config app)
        = Some (SlackService.webhookUrl slack))
  /\ (forall sheets,
        DonationNotifierApp.sheetsService app = Some sheets ->
        spreadsheetId (DonationNotifierApp.config app)
        = Some (SheetsService.spreadsheetId sheets)
        /\ sheetName (DonationNotifierApp.config app)
           = Some (SheetsService.sheetName sheets)).
Proof.
  unfold DonationNotifierApp.new. unfold bind at 1.
  destruct (ConfigService.loadConfig host t) as [[[url id nm]|e] t1];
    [|discriminate].
  unfold DonationNotifierApp.initializeServices,
    ConfigService.isConfigValid, ConfigService.isSheetsConfigValid. simpl.
  unfold bind, ret.
  destruct id as [[|c1 id]|]; destruct nm as [[|c2 nm]|];
    try match goal with
    | |- context [SheetsService.ensureHeaders host ?s t1] =>
        destruct (SheetsService.ensureHeaders host s t1) as [[[]|e] t2]
    end;
    intros H; inversion H; subst; clear H; simpl;
    destruct url as [[|c u]|]; simpl;
    repeat split; try congruence; try discriminate;
    try (intros s Hs; inversion Hs; reflexivity);
    try (intros; congruence);
    match goal with H : Some _ = Some _ |- _ => inversion H; reflexivity end.
Qed.

Lemma services_follow_config_witness :
  exists app t',
    DonationNotifierApp.new no_webhook_host [] = (Ok app, t')
    /\ DonationNotifierApp.slackService app = None
    /\ DonationNotifierApp.sheetsService app
       = Some (SheetsService.New (js "sheet-id") (js "寄付"))
    /\ (ConfigService.isConfigValid (DonationNotifierApp.config app) = true
        <-> DonationNotifierApp.slackService app <> None).
Proof.
  destruct (DonationNotifierApp.new no_webhook_host []) as [r t'] eqn:E.
  vm_compute in E. inversion E; subst; clear E.
  eexists; eexists. split; [reflexivity|].
  split; [reflexivity|]. split; [reflexivity|].
  exact (proj1 (proj2 (services_follow_config no_webhook_host [] _ _ eq_refl))).
Defined.

Lemma loadConfig_emits host :
  emits property_event (ConfigService.loadConfig host).
Proof.
  unfold ConfigService.loadConfig, ConfigService.property.
  repeat emits_step.
Qed.

Lemma initializeServices_emits host config :
  emits sheet_event (DonationNotifierApp.initializeServices host config).
Proof.
  unfold DonationNotifierApp.initializeServices.
  destruct (spreadsheetId config) as [[|c1 id]|];
    destruct (sheetName config) as [[|c2 nm]|]; try apply emits_ret.
  apply emits_bind; [apply ensureHeaders_emits | intros _; apply emits_ret].
Qed.

(** X2: the constructor first reads the script properties and raises
    what that read raises; otherwise it returns, having then asked only
    the spreadsheet service (and the console), and nothing at all when
    the spreadsheet is not configured.  It never asks the mailbox or the
    webhook. *)
Theorem constructor_requests host t :
  exists pevs,
    snd (ConfigService.loadConfig host t) = t ++ pevs
    /\ Forall property_event pevs
    /\ match fst (ConfigService.loadConfig host t) with
       | Throw e => DonationNotifierApp.new host t = (Throw e, t ++ pevs)
       | Ok config =>
           exists app evs,
             DonationNotifierApp.new host t = (Ok app, t ++ pevs ++ evs)
             /\ Forall sheet_event evs
             /\ (ConfigService.isSheetsConfigValid config = false -> evs = [])
       end.
Proof.
  destruct (loadConfig_emits host t) as (r & pevs & Hl & Hp).
  exists pevs. unfold DonationNotifierApp.new, bind. rewrite Hl. simpl.
  split; [reflexivity|]. split; [exact Hp|].
  destruct r as [config|e]; [|reflexivity].
  destruct (initializeServices_emits host config (t ++ pevs))
    as (r & evs & Hi & He).
  destruct (initializeServices_ok host config (t ++ pevs)) as (app & t' & Hok).
  rewrite Hi in Hok. inversion Hok; subst r t'.
  exists app, evs. rewrite Hi, app_assoc. split; [reflexivity|].
  split; [exact He|].
  intros Hv. revert Hi.
  unfold DonationNotifierApp.initializeServices,
    ConfigService.isSheetsConfigValid in *.
  destruct (spreadsheetId config) as [[|c1 id]|];
    destruct (sheetName config) as [[|c2 nm]|];
    try discriminate Hv;
    unfold ret; intros Hi; inversion Hi as [[Ha Ht]];
    rewrite <- (app_nil_r (t ++ pevs)) in Ht at 1;
    apply app_inv_head in Ht; congruence.
Qed.

(* ------------------------------------------------------------------ *)
(** * Further properties: the sinks *)

Lemma getSheet_sheet_of host sheets t :
  SheetsService.getSheet host sheets t
  = (Ok (sheet_of host sheets t), t ++ lookup_events host sheets t).
Proof.
  unfold sheet_of.
  destruct (getSheet_run host sheets t) as [o ->]. reflexivity.
Qed.

(** X3: when the sheet cannot be found (the spreadsheet cannot be opened,
    or the lookup by name raises or finds nothing), [recordDonation]
    appends nothing and raises its own error naming the sheet, whatever
    the spreadsheet service had raised; it logs that error. *)
Theorem recordDonation_without_sheet host sheets d n a f t :
  sheet_of host sheets t = None ->
  SheetsService.recordDonation host sheets d n a f t
  = (Throw (sheet_not_found sheets),
     t ++ lookup_events host sheets t
       ++ [Console ERROR (SheetRecordFailed (sheet_not_found sheets))])
  /\ appended (lookup_events host sheets t
                 ++ [Console ERROR (SheetRecordFailed (sheet_not_found sheets))])
     = [].
Proof.
  intros H. split.
  - unfold SheetsService.recordDonation. unfold_m.
    rewrite getSheet_sheet_of, H. trace_norm. reflexivity.
  - rewrite appended_app.
    destruct (lookup_events_quiet host sheets t) as [_ ->]. reflexivity.
Qed.

(** X4: when the sheet is found, [recordDonation] asks for exactly one
    row: the date as a Date when it parses and as the string otherwise,
    then name, amount and frequency; it returns when the append returns
    and raises the append's own error when it raises. *)
Theorem recordDonation_with_sheet host sheets d n a f t sh :
  sheet_of host sheets t = Some sh ->
  let t1 := t ++ lookup_events host sheets t in
  let row := donation_row host d n a f in
  SheetsService.recordDonation host sheets d n a f t
  = match appendRow host t1 sh row with
    | Ok _ => (Ok tt, t1 ++ [SheetAppendRow sh row;
                             Console LOG (SheetRecorded n a)])
    | Throw e => (Throw e, t1 ++ [SheetAppendRow sh row;
                                  Console ERROR (SheetRecordFailed e)])
    end.
Proof.
  intros H t1 row.
  unfold SheetsService.recordDonation. unfold_m.
  rewrite getSheet_sheet_of, H. fold t1. fold (donation_row host d n a f).
  fold row. destruct (appendRow host t1 sh row) as [[]|e];
    trace_norm; reflexivity.
Qed.

(** X5: when the webhook raises, the donation goes no further: the
    spreadsheet is not asked, nothing is marked read, and the error is
    logged by the sender and by [processDonation], which returns
    normally. *)
Theorem failed_notification_stops_donation host app slack d messageId t e :
  DonationNotifierApp.slackService app = Some slack ->
  let url := SlackService.webhookUrl slack in
  let payload :=
    Payload (date d) (toLocaleString host (amount d) ++ [YEN]) (frequency d) in
  fetch host (t ++ [Console LOG (Processing d)]) url payload = Throw e ->
  DonationNotifierApp.processDonation host app d messageId t
  = (Ok tt, t ++ [Console LOG (Processing d); UrlFetch url payload;
                  Console ERROR (SlackFailed e);
                  Console ERROR (ProcessFailed messageId e)]).
Proof.
  intros Hs url payload Hf.
  unfold DonationNotifierApp.processDonation. rewrite Hs.
  unfold bind, try_catch, console.
  rewrite send_run. cbv zeta. fold url. fold payload. rewrite Hf.
  trace_norm. reflexivity.
Qed.

(* ------------------------------------------------------------------ *)
(** * Further properties: the scan and the whole run *)

Lemma processNewDonations_unfold host cb t :
  let q := GmailService.SEARCH_QUERY in
  GmailService.processNewDonations host cb t
  = match search host t q with
    | Throw e => (Throw e, t ++ [GmailSearch q])
    | Ok threads =>
        match getMessagesForThreads host (t ++ [GmailSearch q]) threads with
        | Throw e =>
            (Throw e, t ++ [GmailSearch q; GmailGetMessagesForThreads threads])
        | Ok nested =>
            (Ok tt,
             after_messages host cb (concat nested)
               (t ++ [GmailSearch q; GmailGetMessagesForThreads threads]))
        end
    end.
Proof.
  intros q. unfold GmailService.processNewDonations. unfold_m. fold q.
  destruct (search host t q) as [threads|e]; [|reflexivity].
  destruct (getMessagesForThreads host (t ++ [GmailSearch q]) threads)
    as [nested|e]; trace_norm; [|reflexivity].
  rewrite for_of_processMessage. reflexivity.
Qed.

(** X6: the scan is the search, the listing of the threads' messages and
    then every message processed in turn; it raises exactly when the
    search or the listing raises, and then no body is read and the
    callback is not called. *)
Theorem processNewDonations_run host cb t :
  let q := GmailService.SEARCH_QUERY in
  GmailService.processNewDonations host cb t
  = match search host t q with
    | Throw e => (Throw e, t ++ [GmailSearch q])
    | Ok threads =>
        match getMessagesForThreads host (t ++ [GmailSearch q]) threads with
        | Throw e =>
            (Throw e, t ++ [GmailSearch q; GmailGetMessagesForThreads threads])
        | Ok nested =>
            (Ok tt,
             after_messages host cb (concat nested)
               (t ++ [GmailSearch q; GmailGetMessagesForThreads threads]))
        end
    end.
Proof.
  intros q. unfold GmailService.processNewDonations. unfold_m. fold q.
  destruct (search host t q) as [threads|e]; [|reflexivity].
  destruct (getMessagesForThreads host (t ++ [GmailSearch q]) threads)
    as [nested|e]; trace_norm; [|reflexivity].
  rewrite for_of_processMessage. reflexivity.
Qed.

Lemma app_check_run host app t :
  ConfigService.isConfigValid (DonationNotifierApp.config app) = true ->
  DonationNotifierApp.checkForNewDonations host app t
  = match GmailService.processNewDonations host
            (DonationNotifierApp.processDonation host app)
            (t ++ [Console LOG CheckStarted]) with
    | (Ok _, t1) => (Ok tt, t1 ++ [Console LOG CheckDone])
    | (Throw e, t1) => (Ok tt, t1 ++ [Console ERROR (CheckFailed e)])
    end.
Proof.
  intros H. unfold DonationNotifierApp.checkForNewDonations. rewrite H. simpl.
  unfold_m.
  change (fun (details : DonationDetails) (messageId : jsstring) =>
            DonationNotifierApp.processDonation host app details messageId)
    with (DonationNotifierApp.processDonation host app).
  destruct (GmailService.processNewDonations host _ _) as [[[]|e] t1];
    reflexivity.
Qed.

(** X7: with no message found, the run is the search, the listing and
    two log lines: no sink is called and nothing is marked read. *)
Theorem empty_scan_run host app t threads nested :
  ConfigService.isConfigValid (DonationNotifierApp.config app) = true ->
  search host (t ++ [Console LOG CheckStarted]) GmailService.SEARCH_QUERY
  = Ok threads ->
  getMessagesForThreads host
    (t ++ [Console LOG CheckStarted; GmailSearch GmailService.SEARCH_QUERY])
    threads = Ok nested ->
  concat nested = [] ->
  DonationNotifierApp.checkForNewDonations host app t
  = (Ok tt, t ++ [Console LOG CheckStarted;
                  GmailSearch GmailService.SEARCH_QUERY;
                  GmailGetMessagesForThreads threads;
                  Console LOG CheckDone]).
Proof.
  intros Hv Hs Hm Hn.
  rewrite (app_check_run _ _ _ Hv), processNewDonations_unfold.
  cbv zeta. rewrite Hs. trace_norm. rewrite Hm, Hn. simpl.
  trace_norm. reflexivity.
Qed.

Lemma body_reads_app a b : body_reads (a ++ b) = body_reads a ++ body_reads b.
Proof. apply flat_map_app. Qed.

Lemma body_reads_donation evs : Forall donation_event evs -> body_reads evs = [].
Proof.
  induction 1 as [|ev evs Hev _ IH]; [reflexivity|].
  destruct ev; simpl in *; auto; contradiction.
Qed.

Lemma subseq_nil_l {A} (l : list A) : subseq [] l.
Proof. induction l; constructor; auto. Qed.

Lemma subseq_app {A} (a b c d : list A) :
  subseq a b -> subseq c d -> subseq (a ++ c) (b ++ d).
Proof.
  induction 1 as [|x a b _ IH|x a b _ IH]; simpl; intros H.
  - exact H.
  - apply subseq_skip. auto.
  - apply subseq_keep. auto.
Qed.

Lemma processDonation_after_sinks host app d messageId t :
  let t0 := t ++ [Console LOG (Processing d)] in
  DonationNotifierApp.processDonation host app d messageId t
  = match sinks host app d t0 with
    | (Ok _, t1) =>
        match markRead host t1 messageId with
        | Ok _ => (Ok tt, t1 ++ [GmailMarkRead messageId;
                                  Console LOG (Processed messageId)])
        | Throw e => (Ok tt, t1 ++ [GmailMarkRead messageId;
                                    Console ERROR (ProcessFailed messageId e)])
        end
    | (Throw e, t1) =>
        (Ok tt, t1 ++ [Console ERROR (ProcessFailed messageId e)])
    end.
Proof.
  intros t0.
  unfold DonationNotifierApp.processDonation, sinks. unfold_m. fold t0.
  destruct (DonationNotifierApp.slackService app) as [slack|];
    destruct (DonationNotifierApp.sheetsService app) as [sheets|];
    cbv beta iota;
    repeat match goal with
    | |- context [SlackService.sendDonationNotification host ?s ?a ?b ?c ?t1] =>
        destruct (SlackService.sendDonationNotification host s a b c t1)
          as [[[]|?] ?]
    | |- context [SheetsService.recordDonation host ?s ?a ?b ?c ?e ?t1] =>
        destruct (SheetsService.recordDonation host s a b c e t1)
          as [[[]|?] ?]
    | |- context [markRead host ?t1 ?i] =>
        destruct (markRead host t1 i) as [[]|?]
    end;
    trace_norm; reflexivity.
Qed.

Lemma processDonation_shape host app d messageId t :
  exists evs,
    DonationNotifierApp.processDonation host app d messageId t
    = (Ok tt, t ++ evs)
    /\ Forall donation_event evs
    /\ (mark_reads evs = [] \/ mark_reads evs = [messageId]).
Proof.
  destruct (processDonation_emits host app d messageId t)
    as (r & evs & Hr & Hevs).
  exists evs.
  pose proof (processDonation_after_sinks host app d messageId t) as Hp.
  cbv zeta in Hp.
  destruct (sinks_run host app d (t ++ [Console LOG (Processing d)]))
    as (rs & sevs & Hs & Hm).
  rewrite Hs in Hp. rewrite Hr in Hp.
  assert (Hmarks : forall tail,
            mark_reads ([Console LOG (Processing d)] ++ sevs ++ tail)
            = mark_reads tail).
  { intros tail. simpl. now rewrite mark_reads_app, Hm. }
  destruct rs as [[]|e];
    [destruct (markRead host _ messageId) as [[]|e]|];
    inversion Hp as [[Hr' Ht]]; subst r;
    rewrite <- !app_assoc in Ht; apply app_inv_head in Ht; subst evs;
    (split; [exact Hr|]); (split; [assumption|]);
    rewrite Hmarks; simpl; auto.
Qed.

Lemma processMessage_donation host app m t :
  exists evs,
    GmailService.processMessage host
      (DonationNotifierApp.processDonation host app) m t
    = (Ok tt, t ++ MessageGetPlainBody m :: evs)
    /\ Forall donation_event evs
    /\ (mark_reads evs = [] \/ mark_reads evs = [message_id m]).
Proof.
  unfold GmailService.processMessage. unfold_m.
  destruct (getPlainBody host t m) as [body|e].
  - destruct (extractDonationDetails body) as [[d|]|e].
    + destruct (processDonation_shape host app d (message_id m)
                  (t ++ [MessageGetPlainBody m])) as (evs & -> & Hf & Hm).
      exists evs. trace_norm. auto.
    + eexists. trace_norm. split; [reflexivity|].
      split; [repeat constructor | now left].
    + eexists. trace_norm. split; [reflexivity|].
      split; [repeat constructor | now left].
  - eexists. trace_norm. split; [reflexivity|].
    split; [repeat constructor | now left].
Qed.

Lemma after_messages_shape host app ms : forall t,
  exists evs,
    after_messages host (DonationNotifierApp.processDonation host app) ms t
    = t ++ evs
    /\ body_reads evs = ms
    /\ subseq (mark_reads evs) (map message_id ms).
Proof.
  unfold after_messages.
  induction ms as [|m ms IH]; intros t; simpl.
  - exists []. rewrite app_nil_r. repeat split. constructor.
  - destruct (processMessage_donation host app m t) as (evs & -> & Hf & Hm).
    simpl. destruct (IH (t ++ MessageGetPlainBody m :: evs))
      as (evs' & -> & Hb & Hs).
    exists ((MessageGetPlainBody m :: evs) ++ evs').
    rewrite <- app_assoc. split; [reflexivity|]. split.
    + rewrite body_reads_app. simpl.
      now rewrite (body_reads_donation _ Hf), Hb.
    + rewrite mark_reads_app. simpl.
      change (message_id m :: map message_id ms)
        with ([message_id m] ++ map message_id ms).
      apply subseq_app; [|exact Hs].
      destruct Hm as [-> | ->];
        [apply subseq_nil_l | apply subseq_keep, subseq_nil].
Qed.

Lemma run_shape host app t threads nested :
  ConfigService.isConfigValid (DonationNotifierApp.config app) = true ->
  search host (t ++ [Console LOG CheckStarted]) GmailService.SEARCH_QUERY
  = Ok threads ->
  getMessagesForThreads host
    (t ++ [Console LOG CheckStarted; GmailSearch GmailService.SEARCH_QUERY])
    threads = Ok nested ->
  exists evs,
    DonationNotifierApp.checkForNewDonations host app t = (Ok tt, t ++ evs)
    /\ body_reads evs = concat nested
    /\ subseq (mark_reads evs) (map message_id (concat nested)).
Proof.
  intros Hv Hs Hm.
  rewrite (app_check_run _ _ _ Hv), processNewDonations_unfold.
  cbv zeta. rewrite Hs. trace_norm. rewrite Hm.
  destruct (after_messages_shape host app (concat nested)
              (t ++ [Console LOG CheckStarted;
                     GmailSearch GmailService.SEARCH_QUERY;
                     GmailGetMessagesForThreads threads]))
    as (evs & He & Hb & Hsub).
  trace_norm. simpl in He. rewrite He.
  eexists. trace_norm. split; [reflexivity|].
  simpl. rewrite body_reads_app, mark_reads_app. simpl.
  rewrite !app_nil_r. auto.
Qed.

(** X8: in a run whose search and listing return, the body of every
    listed message is asked for exactly once, in the order of the
    listing, whatever happens to the messages before it. *)
Theorem every_message_is_read host app t threads nested :
  ConfigService.isConfigValid (DonationNotifierApp.config app) = true ->
  search host (t ++ [Console LOG CheckStarted]) GmailService.SEARCH_QUERY
  = Ok threads ->
  getMessagesForThreads host
    (t ++ [Console LOG CheckStarted; GmailSearch GmailService.SEARCH_QUERY])
    threads = Ok nested ->
  exists evs,
    DonationNotifierApp.checkForNewDonations host app t = (Ok tt, t ++ evs)
    /\ body_reads evs = concat nested.
Proof.
  intros Hv Hs Hm.
  destruct (run_shape host app t threads nested Hv Hs Hm) as (evs & H & Hb & _).
  eauto.
Qed.

(** X9: the messages a run marks read are listed messages, in the order
    of the listing, each at most once for each time it is listed: the run
    never marks anything else. *)
Theorem marks_follow_listing host app t threads nested :
  ConfigService.isConfigValid (DonationNotifierApp.config app) = true ->
  search host (t ++ [Console LOG CheckStarted]) GmailService.SEARCH_QUERY
  = Ok threads ->
  getMessagesForThreads host
    (t ++ [Console LOG CheckStarted; GmailSearch GmailService.SEARCH_QUERY])
    threads = Ok nested ->
  exists evs,
    DonationNotifierApp.checkForNewDonations host app t = (Ok tt, t ++ evs)
    /\ subseq (mark_reads evs) (map message_id (concat nested)).
Proof.
  intros Hv Hs Hm.
  destruct (run_shape host app t threads nested Hv Hs Hm) as (evs & H & _ & Hb).
  eauto.
Qed.

(* ------------------------------------------------------------------ *)
(** * Further properties: the extracted fields *)

Lemma drop_while_suffix p s :
  exists l, s = l ++ drop_while p s /\ forallb p l = true.
Proof.
  induction s as [|x s (l & IH & Hl)]; simpl.
  - exists []. auto.
  - destruct (p x) eqn:E.
    + exists (x :: l). simpl. rewrite E, Hl. split; [congruence|reflexivity].
    + exists []. auto.
Qed.

Lemma drop_while_head_false p s :
  match drop_while p s with
  | x :: _ => p x = false
  | [] => True
  end.
Proof.
  induction s as [|x s IH]; simpl; [exact I|].
  destruct (p x) eqn:E; [exact IH | exact E].
Qed.

(** [trim] cuts white space off both ends and nothing else. *)
Lemma trim_infix s :
  exists l r, s = l ++ trim s ++ r
              /\ forallb is_space l = true /\ forallb is_space r = true.
Proof.
  unfold trim, trim_start, trim_end.
  destruct (drop_while_suffix is_space s) as (l & Hl & Hsl).
  destruct (drop_while_suffix is_space (rev (drop_while is_space s)))
    as (r & Hr & Hsr).
  exists l, (rev r). split; [|split; [exact Hsl|]].
  - rewrite Hl at 1. f_equal.
    rewrite <- (rev_involutive (drop_while is_space s)) at 1.
    rewrite Hr at 1. now rewrite rev_app_distr.
  - rewrite forallb_forall in *. intros x Hx. apply Hsr. now apply in_rev.
Qed.

Lemma trim_trimmed s : trimmed (trim s).
Proof.
  split; intros x s' H.
  - destruct (trim_infix s) as (l & r & _ & _ & _).
    unfold trim, trim_start, trim_end in H.
    destruct (drop_while_suffix is_space (rev (drop_while is_space s)))
      as (r' & Hr' & _).
    apply (f_equal (@rev char)) in Hr'.
    rewrite rev_involutive, rev_app_distr, H in Hr'.
    pose proof (drop_while_head_false is_space s) as Hh.
    rewrite Hr' in Hh. exact Hh.
  - unfold trim, trim_end in H.
    apply (f_equal (@rev char)) in H.
    rewrite rev_involutive, rev_app_distr in H. simpl in H.
    pose proof (drop_while_head_false is_space (rev (trim_start s))) as Hh.
    rewrite H in Hh. exact Hh.
Qed.

Lemma forallb_infix (p : char -> bool) l m r :
  forallb p (l ++ m ++ r) = true -> forallb p m = true.
Proof.
  rewrite !forallb_app. intros H.
  apply andb_prop in H. destruct H as [_ H].
  apply andb_prop in H. tauto.
Qed.

Lemma forallb_trim p s : forallb p s = true -> forallb p (trim s) = true.
Proof.
  intros H. destruct (trim_infix s) as (l & r & Hs & _).
  rewrite Hs in H. eapply forallb_infix; eassumption.
Qed.

Lemma before_space_run_prefix s :
  exists rest, s = before_space_run s ++ rest.
Proof.
  induction s as [|a s (rest & IH)]; [exists []; reflexivity|].
  simpl. destruct s as [|b s]; [exists []; reflexivity|].
  destruct (is_space a && is_space b).
  - eexists. reflexivity.
  - exists rest. simpl in *. congruence.
Qed.

Lemma before_blank_prefix s : exists rest, s = before_blank s ++ rest.
Proof.
  induction s as [|a s (rest & IH)]; [exists []; reflexivity|].
  simpl. destruct (a =? SPACE)%N.
  - eexists. reflexivity.
  - exists rest. simpl. congruence.
Qed.

Lemma before_blank_no_space s : ~ In SPACE (before_blank s).
Proof.
  induction s as [|a s IH]; simpl; [tauto|].
  destruct (a =? SPACE)%N eqn:E; simpl; [tauto|].
  apply N.eqb_neq in E. intros [H | H]; [congruence | tauto].
Qed.

Lemma before_space_run_cons a b s :
  before_space_run (a :: b :: s)
  = if is_space a && is_space b then [] else a :: before_space_run (b :: s).
Proof. reflexivity. Qed.

Lemma before_space_run_head b s y post :
  before_space_run (b :: s) = y :: post -> y = b.
Proof.
  destruct s as [|b' s]; [simpl; congruence|].
  rewrite before_space_run_cons.
  destruct (is_space b && is_space b'); congruence.
Qed.

Lemma before_space_run_no_run s : ~ has_space_run (before_space_run s).
Proof.
  induction s as [|a s IH]; intros (pre & x & y & post & H & Hx & Hy).
  - destruct pre; discriminate.
  - destruct s as [|b s].
    + destruct pre as [|? [|? ?]]; discriminate.
    + rewrite before_space_run_cons in H.
      destruct (is_space a && is_space b) eqn:E.
      * destruct pre; discriminate.
      * destruct pre as [|c pre]; cbn [app] in H; inversion H as [[Ha Hb]].
        -- apply before_space_run_head in Hb. subst.
           now rewrite Hx, Hy in E.
        -- apply IH. exists pre, x, y, post. auto.
Qed.

Lemma has_space_run_infix l m r :
  has_space_run m -> has_space_run (l ++ m ++ r).
Proof.
  intros (pre & a & b & post & -> & Ha & Hb).
  exists (l ++ pre), a, b, (post ++ r). repeat split; auto.
  rewrite <- !app_assoc. reflexivity.
Qed.

Lemma digit_is_dot c : is_digit c = true -> is_dot c = true.
Proof.
  unfold is_digit, is_dot, is_line_terminator. intros H.
  apply andb_prop in H. destruct H as [H1 H2].
  apply N.leb_le in H1. apply N.leb_le in H2.
  repeat match goal with
  | |- context [(c =? ?k)%N] =>
      replace (c =? k)%N with false by (symmetry; apply N.eqb_neq; lia)
  end.
  reflexivity.
Qed.

Lemma digits_dot s : forallb is_digit s = true -> forallb is_dot s = true.
Proof.
  induction s as [|x s IH]; simpl; [auto|]. intros H.
  apply andb_prop in H. destruct H as [Hx Hs].
  now rewrite (digit_is_dot _ Hx), IH.
Qed.

Lemma zero_padded_dot ts : well_formed ts -> forallb is_dot (zero_padded ts) = true.
Proof.
  intros (Hy & Hmo & Hd & _ & Hh & Hmi & Hse).
  repeat match goal with
  | H : digits 1 2 _ |- _ => apply two_digits_digits in H
  end.
  unfold zero_padded, digits in *. rewrite !forallb_app. simpl.
  rewrite !digits_dot by tauto. reflexivity.
Qed.

Lemma normalize_dot s t :
  forallb is_dot s = true -> normalize s = Ok t -> forallb is_dot t = true.
Proof.
  intros Hs Hn. destruct (exec DATE_RE s) as [r|] eqn:E.
  - destruct (normalize_match s r E) as (ts & Hw & _ & Hz).
    rewrite Hz in Hn. inversion Hn; subst. now apply zero_padded_dot.
  - unfold normalize in Hn. rewrite E in Hn. now inversion Hn; subst.
Qed.

Lemma normalize_fixed s t : normalize s = Ok t -> normalize t = Ok t.
Proof.
  intros Hn. destruct (exec DATE_RE s) as [r|] eqn:E.
  - destruct (normalize_match s r E) as (ts & Hw & _ & Hz).
    rewrite Hz in Hn. inversion Hn; subst. now apply normalize_zero_padded.
  - unfold normalize in Hn. rewrite E in Hn. inversion Hn; subst.
    unfold normalize. now rewrite E.
Qed.

Lemma round_double_shape n : (0 <= n)%Z -> amount_shape (round_double n).
Proof.
  intros Hn. unfold round_double.
  destruct (Z.ltb_spec n (2 ^ 53)); [exact Hn|]. cbv zeta.
  match goal with
  | |- context [if ?b then PosInfinity else _] => destruct b
  end; [exact I|]. simpl.
  apply Z.mul_nonneg_nonneg; [|apply Z.pow_nonneg; lia].
  pose proof (Z.div_pos n (2 ^ (Z.log2 n - 52))) as Hq.
  assert (0 < 2 ^ (Z.log2 n - 52))%Z.
  { apply Z.pow_pos_nonneg; [lia|].
    assert (53 <= Z.log2 n)%Z; [|lia].
    apply Z.log2_le_pow2; lia. }
  repeat match goal with
  | |- context [if ?b then _ else _] => destruct b
  end; lia.
Qed.

(** The captured texts behind extracted details. *)
Lemma extract_some_inv body d :
  extractDonationDetails body = Ok (Some d) ->
  exists gd gn gf ds nd,
    forallb is_dot gd = true /\ forallb is_dot gn = true
    /\ forallb is_dot gf = true
    /\ normalize (trim gd) = Ok nd
    /\ d = Details nd (trim (before_space_run gn))
                   (round_double (math_int ds)) (trim (before_blank gf)).
Proof.
  intros H.
  destruct (exec P_date body) as [md|] eqn:Ed;
    [|unfold extractDonationDetails in H; rewrite Ed in H; discriminate].
  destruct (exec P_name body) as [mn|] eqn:En;
    [|unfold extractDonationDetails in H; rewrite Ed, En in H; discriminate].
  destruct (exec P_amount body) as [ma|] eqn:Ea;
    [|unfold extractDonationDetails in H; rewrite Ed, En, Ea in H; discriminate].
  destruct (exec P_frequency body) as [mf|] eqn:Ef;
    [|unfold extractDonationDetails in H; rewrite Ed, En, Ea, Ef in H;
      discriminate].
  destruct (extract_matched body md mn ma mf Ed En Ea Ef)
    as (gd & gn & ga & gf & nd & Hgd & Hgn & _ & Hgf & _ & Hnd & He).
  rewrite He in H.
  destruct (remove_all COMMA ga) as [|x ds] eqn:Eds; [discriminate|].
  inversion H; subst d; clear H.
  apply exec_labelled in Ed. destruct Ed as (gd' & Hgd' & Hdd & _).
  apply exec_labelled in En. destruct En as (gn' & Hgn' & Hdn & _).
  apply exec_labelled in Ef. destruct Ef as (gf' & Hgf' & Hdf & _).
  assert (gd' = gd) by congruence. assert (gn' = gn) by congruence.
  assert (gf' = gf) by congruence. subst.
  exists gd, gn, gf, (x :: ds), nd. auto.
Qed.

(** X10: no field of extracted details holds a line break: date, name
    and frequency are each taken from one line of the body. *)
Theorem extracted_fields_single_line body d :
  extractDonationDetails body = Ok (Some d) ->
  forallb is_dot (date d) = true /\ forallb is_dot (name d) = true
  /\ forallb is_dot (frequency d) = true.
Proof.
  intros H. apply extract_some_inv in H.
  destruct H as (gd & gn & gf & ds & nd & Hd & Hn & Hf & Hnd & ->). simpl.
  split; [|split].
  - eapply normalize_dot; [|exact Hnd]. now apply forallb_trim.
  - apply forallb_trim.
    destruct (before_space_run_prefix gn) as (rest & Hr).
    rewrite Hr, forallb_app in Hn. apply andb_prop in Hn. tauto.
  - apply forallb_trim.
    destruct (before_blank_prefix gf) as (rest & Hr).
    rewrite Hr, forallb_app in Hf. apply andb_prop in Hf. tauto.
Qed.

(** X11: the extracted name and frequency have no white space at either
    end; the name has no two white-space characters in a row, and the
    frequency no space at all. *)
Theorem extracted_name_frequency_shape body d :
  extractDonationDetails body = Ok (Some d) ->
  trimmed (name d) /\ ~ has_space_run (name d)
  /\ trimmed (frequency d) /\ ~ In SPACE (frequency d).
Proof.
  intros H. apply extract_some_inv in H.
  destruct H as (gd & gn & gf & ds & nd & _ & _ & _ & _ & ->). simpl.
  split; [apply trim_trimmed|]. split; [|split; [apply trim_trimmed|]].
  - intros Hr. apply (before_space_run_no_run gn).
    destruct (trim_infix (before_space_run gn)) as (l & r & Hs & _).
    rewrite Hs. now apply has_space_run_infix.
  - intros Hin. apply (before_blank_no_space gf).
    destruct (trim_infix (before_blank gf)) as (l & r & Hs & _).
    rewrite Hs. apply in_or_app. right. apply in_or_app. now left.
Qed.

(** X12: the extracted date is already normalised: [normalize] returns
    it unchanged. *)
Theorem extracted_date_normalized body d :
  extractDonationDetails body = Ok (Some d) ->
  normalize (date d) = Ok (date d).
Proof.
  intros H. apply extract_some_inv in H.
  destruct H as (gd & gn & gf & ds & nd & _ & _ & _ & Hnd & ->). simpl.
  eapply normalize_fixed; eassumption.
Qed.

(** X13: the extracted amount is never NaN and never negative: it is a
    finite amount from 0 up, or +Infinity. *)
Theorem extracted_amount_shape body d :
  extractDonationDetails body = Ok (Some d) -> amount_shape (amount d).
Proof.
  intros H. apply extract_some_inv in H.
  destruct H as (gd & gn & gf & ds & nd & _ & _ & _ & _ & ->). simpl.
  apply round_double_shape, math_int_nonneg.
Qed.

(* ------------------------------------------------------------------ *)
(** * Further properties: the edges of [normalize] *)

Lemma match_here_five_digits d1 d2 d3 d4 d5 rest :
  is_digit d5 = true ->
  match_here DATE_RE (d1 :: d2 :: d3 :: d4 :: d5 :: rest) [] = None.
Proof.
  intros H5.
  destruct (match_here DATE_RE (d1 :: d2 :: d3 :: d4 :: d5 :: rest) [])
    as [[g r]|] eqn:E; [|reflexivity].
  exfalso. apply match_here_sound in E. destruct E as (gs & _ & Hp).
  apply pmatch_date in Hp. destruct Hp as (ts & Hw & Hs & _).
  destruct Hw as ((_ & Hy1 & Hy2) & _).
  unfold text in Hs.
  destruct (ts_year ts) as [|y1 [|y2 [|y3 [|y4 [|y5 y]]]]];
    simpl in Hy1, Hy2; try lia.
  simpl in Hs. inversion Hs; subst. discriminate.
Qed.

Lemma prepend_nil r : prepend [] r = r.
Proof. now destruct r. Qed.

Lemma prepend_cons x pre r : prepend [x] (prepend pre r) = prepend (x :: pre) r.
Proof. reflexivity. Qed.

(** Digits in front of a four-digit year are passed over. *)
Lemma exec_skip_digits : forall extra y rest,
  forallb is_digit extra = true ->
  forallb is_digit y = true -> length y = 4 ->
  exec DATE_RE (extra ++ y ++ rest)
  = option_map (prepend extra) (exec DATE_RE (y ++ rest)).
Proof.
  induction extra as [|x extra IH]; intros y rest He Hy Hl.
  - simpl. destruct (exec DATE_RE (y ++ rest)) as [r|]; simpl;
      [now rewrite prepend_nil | reflexivity].
  - simpl in He. apply andb_prop in He. destruct He as [Hx He].
    simpl. rewrite exec_cons.
    + rewrite (IH y rest He Hy Hl).
      destruct (exec DATE_RE (y ++ rest)); reflexivity.
    + assert (Hw : forallb is_digit (extra ++ y) = true)
        by (rewrite forallb_app, He, Hy; reflexivity).
      assert (Hlw : 4 <= length (extra ++ y))
        by (rewrite length_app; lia).
      rewrite app_assoc.
      destruct (extra ++ y) as [|c1 [|c2 [|c3 [|c4 w]]]]; simpl in Hlw; try lia.
      simpl in Hw. simpl. apply match_here_five_digits.
      repeat (apply andb_prop in Hw; destruct Hw as [? Hw]). assumption.
Qed.

(** X14: [normalize] takes the year from the last four digits before the
    first slash and the seconds from at most two digits: further digits in
    front of the year, and whatever follows the seconds, are dropped. *)
Theorem normalize_drops_extra_digits extra ts post :
  forallb is_digit extra = true ->
  well_formed ts ->
  (length (ts_second ts) = 2
   \/ forall x post', post = x :: post' -> is_digit x = false) ->
  normalize (extra ++ text ts ++ post) = Ok (zero_padded ts).
Proof.
  intros He Hw Hpost.
  assert (Hb : blocked is_digit (Some 2) (length (ts_second ts)) post).
  { destruct post as [|x post']; simpl; [exact I|].
    destruct Hpost as [H2 | Hx]; [right; now rewrite H2 | left; eauto]. }
  pose proof (exec_date ts post Hw Hb) as Hexec.
  unfold normalize.
  assert (E : exec DATE_RE (extra ++ text ts ++ post)
              = Some (MatchResult (extra ++ []) (fields ts) post)).
  { destruct Hw as ((Hy & Hy1 & Hy2) & _).
    unfold text in *. rewrite <- !app_assoc in *.
    rewrite exec_skip_digits; auto; [|lia].
    rewrite Hexec. reflexivity. }
  rewrite E. simpl. fold (padded ts). now rewrite padded_zero_padded.
Qed.

Lemma normalize_drops_extra_digits_witness :
  normalize (js "12024/3/5 9:7:123") = Ok (js "2024/03/05 09:07:12").
Proof.
  apply (normalize_drops_extra_digits (js "1") ts_12_seconds (js "3")).
  - reflexivity.
  - unfold well_formed, digits; simpl. repeat split; try reflexivity; lia.
  - left. reflexivity.
Defined.

(* ------------------------------------------------------------------ *)
(** * Further properties: concrete instances *)

Lemma recordDonation_without_sheet_witness :
  SheetsService.recordDonation no_spreadsheet_host demo_sheets
    (date sample_details) (name sample_details) (amount sample_details)
    (frequency sample_details) []
  = (Throw (sheet_not_found demo_sheets),
     [SpreadsheetOpenById (js "sheet-id");
      Console ERROR (SheetUnavailable (HostError 3));
      Console ERROR (SheetRecordFailed (sheet_not_found demo_sheets))]).
Proof.
  exact (proj1 (recordDonation_without_sheet no_spreadsheet_host demo_sheets
                  (date sample_details) (name sample_details)
                  (amount sample_details) (frequency sample_details) []
                  eq_refl)).
Defined.

Lemma recordDonation_with_sheet_witness :
  SheetsService.recordDonation demo_host demo_sheets
    (date sample_details) (name sample_details) (amount sample_details)
    (frequency sample_details) []
  = (Ok tt,
     [SpreadsheetOpenById (js "sheet-id");
      SpreadsheetGetSheetByName 7 (js "寄付");
      SheetAppendRow 3 sample_row;
      Console LOG (SheetRecorded (js "山田 太郎") (Num 12345))]).
Proof.
  refine (eq_trans
            (recordDonation_with_sheet demo_host demo_sheets
               (date sample_details) (name sample_details)
               (amount sample_details) (frequency sample_details) [] 3
               eq_refl) _).
  vm_compute. reflexivity.
Defined.

Lemma failed_notification_stops_donation_witness :
  DonationNotifierApp.processDonation failing_webhook_host demo_app
    sample_details (js "m3") []
  = (Ok tt,
     [Console LOG (Processing sample_details);
      UrlFetch (js "https://hooks.example/w")
        (Payload (js "2024/03/05 09:07:01") (js "12,345円") (js "毎月"));
      Console ERROR (SlackFailed (HostError 4));
      Console ERROR (ProcessFailed (js "m3") (HostError 4))]).
Proof.
  refine (eq_trans
            (failed_notification_stops_donation failing_webhook_host demo_app
               (SlackService.New (js "https://hooks.example/w"))
               sample_details (js "m3") [] (HostError 4) eq_refl eq_refl) _).
  vm_compute. reflexivity.
Defined.

Lemma empty_scan_run_witness :
  DonationNotifierApp.checkForNewDonations empty_mailbox_host demo_app []
  = (Ok tt, [Console LOG CheckStarted;
             GmailSearch GmailService.SEARCH_QUERY;
             GmailGetMessagesForThreads [];
             Console LOG CheckDone]).
Proof.
  exact (empty_scan_run empty_mailbox_host demo_app [] [] []
           eq_refl eq_refl eq_refl eq_refl).
Defined.

Lemma every_message_is_read_witness :
  exists evs,
    DonationNotifierApp.checkForNewDonations demo_host demo_app []
    = (Ok tt, evs)
    /\ body_reads evs = demo_messages.
Proof.
  exact (every_message_is_read demo_host demo_app [] [0]
           [[Message (js "m1"); Message (js "m2")]; [Message (js "m3")]]
           eq_refl eq_refl eq_refl).
Defined.

Lemma marks_follow_listing_witness :
  exists evs,
    DonationNotifierApp.checkForNewDonations demo_host demo_app []
    = (Ok tt, evs)
    /\ subseq (mark_reads evs) [js "m1"; js "m2"; js "m3"].
Proof.
  exact (marks_follow_listing demo_host demo_app [] [0]
           [[Message (js "m1"); Message (js "m2")]; [Message (js "m3")]]
           eq_refl eq_refl eq_refl).
Defined.

Lemma extracted_fields_single_line_witness :
  forallb is_dot (date sample_details) = true
  /\ forallb is_dot (name sample_details) = true
  /\ forallb is_dot (frequency sample_details) = true.
Proof.
  exact (extracted_fields_single_line sample_body sample_details extract_sample).
Defined.

Lemma extracted_name_frequency_shape_witness :
  trimmed (name sample_details) /\ ~ has_space_run (name sample_details)
  /\ trimmed (frequency sample_details) /\ ~ In SPACE (frequency sample_details).
Proof.
  exact (extracted_name_frequency_shape sample_body sample_details
           extract_sample).
Defined.

Lemma extracted_date_normalized_witness :
  normalize (date sample_details) = Ok (date sample_details).
Proof.
  exact (extracted_date_normalized sample_body sample_details extract_sample).
Defined.

Lemma extracted_amount_shape_witness : amount_shape (amount sample_details).
Proof.
  exact (extracted_amount_shape sample_body sample_details extract_sample).
Defined.

(* ------------------------------------------------------------------ *)
(** * Further properties: how much a run asks of the sinks *)

Lemma fetches_app a b : fetches (a ++ b) = fetches a + fetches b.
Proof. unfold fetches. now rewrite filter_app, length_app. Qed.

Lemma lookup_events_no_fetch host sheets t :
  fetches (lookup_events host sheets t) = 0.
Proof. unfold lookup_events. cbv zeta. repeat case_oracle; reflexivity. Qed.

Lemma record_counts host sheets d n a f t :
  exists r evs,
    SheetsService.recordDonation host sheets d n a f t = (r, t ++ evs)
    /\ fetches evs = 0 /\ length (appended evs) <= 1.
Proof.
  unfold SheetsService.recordDonation. unfold_m.
  rewrite getSheet_sheet_of.
  destruct (lookup_events_quiet host sheets t) as [_ Hq].
  pose proof (lookup_events_no_fetch host sheets t) as Hf.
  destruct (sheet_of host sheets t) as [sh|]; repeat case_oracle; trace_norm;
    eexists; eexists; (split; [reflexivity|]);
    rewrite fetches_app, appended_app, Hq, Hf; simpl; auto.
Qed.

Lemma sinks_counts host app d t :
  exists r evs,
    sinks host app d t = (r, t ++ evs)
    /\ fetches evs <= 1 /\ length (appended evs) <= 1.
Proof.
  unfold sinks. unfold_m.
  destruct (DonationNotifierApp.slackService app) as [slack|].
  - rewrite send_run. cbv zeta.
    destruct (fetch host t _ _) as [[]|e].
    + destruct (DonationNotifierApp.sheetsService app) as [sheets|].
      * match goal with
        | |- context [SheetsService.recordDonation host ?s ?a ?b ?c ?e ?t0] =>
            destruct (record_counts host s a b c e t0)
              as (r & evs & -> & Hf & Ha)
        end.
        eexists; eexists. trace_norm. split; [reflexivity|].
        unfold fetches, appended in *; simpl;
      rewrite ?filter_app, ?flat_map_app, ?length_app; simpl; lia.
      * eexists; eexists. split; [reflexivity|]. simpl. auto.
    + eexists; eexists. split; [reflexivity|]. simpl. auto.
  - destruct (DonationNotifierApp.sheetsService app) as [sheets|].
    + destruct (record_counts host sheets (date d) (name d) (amount d)
                  (frequency d) t) as (r & evs & -> & Hf & Ha).
      eexists; eexists. split; [reflexivity|]. lia.
    + exists (Ok tt), []. rewrite app_nil_r. simpl. auto.
Qed.

Lemma processDonation_counts host app d messageId t :
  exists evs,
    DonationNotifierApp.processDonation host app d messageId t
    = (Ok tt, t ++ evs)
    /\ fetches evs <= 1 /\ length (appended evs) <= 1.
Proof.
  rewrite processDonation_after_sinks. cbv zeta.
  destruct (sinks_counts host app d (t ++ [Console LOG (Processing d)]))
    as (rs & sevs & -> & Hf & Ha).
  destruct rs as [[]|e];
    [destruct (markRead host _ messageId) as [[]|e]|];
    eexists; trace_norm; (split; [reflexivity|]);
    unfold fetches, appended in *; simpl;
      rewrite ?filter_app, ?flat_map_app, ?length_app; simpl; lia.
Qed.

Lemma processMessage_counts host app m t :
  exists evs,
    GmailService.processMessage host
      (DonationNotifierApp.processDonation host app) m t
    = (Ok tt, t ++ evs)
    /\ fetches evs <= 1 /\ length (appended evs) <= 1.
Proof.
  unfold GmailService.processMessage. unfold_m.
  destruct (getPlainBody host t m) as [body|e].
  - destruct (extractDonationDetails body) as [[d|]|e].
    + destruct (processDonation_counts host app d (message_id m)
                  (t ++ [MessageGetPlainBody m])) as (evs & -> & Hf & Ha).
      eexists. trace_norm. split; [reflexivity|].
      unfold fetches, appended in *; simpl;
      rewrite ?filter_app, ?flat_map_app, ?length_app; simpl; lia.
    + eexists. trace_norm. split; [reflexivity|]. simpl. auto.
    + eexists. trace_norm. split; [reflexivity|]. simpl. auto.
  - eexists. trace_norm. split; [reflexivity|]. simpl. auto.
Qed.

Lemma after_messages_counts host app ms : forall t,
  exists evs,
    after_messages host (DonationNotifierApp.processDonation host app) ms t
    = t ++ evs
    /\ fetches evs <= length ms /\ length (appended evs) <= length ms.
Proof.
  unfold after_messages.
  induction ms as [|m ms IH]; intros t; simpl.
  - exists []. rewrite app_nil_r. auto.
  - destruct (processMessage_counts host app m t) as (evs & -> & Hf & Ha).
    simpl. destruct (IH (t ++ evs)) as (evs' & -> & Hf' & Ha').
    exists (evs ++ evs'). rewrite <- app_assoc. split; [reflexivity|].
    rewrite fetches_app, appended_app, length_app. lia.
Qed.

(** X15: a run posts at most one notification and appends at most one row
    for each listed message. *)
Theorem run_sink_requests_bounded host app t threads nested :
  ConfigService.isConfigValid (DonationNotifierApp.config app) = true ->
  search host (t ++ [Console LOG CheckStarted]) GmailService.SEARCH_QUERY
  = Ok threads ->
  getMessagesForThreads host
    (t ++ [Console LOG CheckStarted; GmailSearch GmailService.SEARCH_QUERY])
    threads = Ok nested ->
  exists evs,
    DonationNotifierApp.checkForNewDonations host app t = (Ok tt, t ++ evs)
    /\ fetches evs <= length (concat nested)
    /\ length (appended evs) <= length (concat nested).
Proof.
  intros Hv Hs Hm.
  rewrite (app_check_run _ _ _ Hv), processNewDonations_unfold.
  cbv zeta. rewrite Hs. trace_norm. rewrite Hm.
  destruct (after_messages_counts host app (concat nested)
              (t ++ [Console LOG CheckStarted;
                     GmailSearch GmailService.SEARCH_QUERY;
                     GmailGetMessagesForThreads threads]))
    as (evs & He & Hf & Ha).
  trace_norm. simpl in He. rewrite He.
  eexists. trace_norm. split; [reflexivity|].
  unfold fetches, appended in *; simpl;
      rewrite ?filter_app, ?flat_map_app, ?length_app; simpl; lia.
Qed.

Lemma run_sink_requests_bounded_witness :
  exists evs,
    DonationNotifierApp.checkForNewDonations demo_host demo_app []
    = (Ok tt, evs)
    /\ fetches evs <= 3 /\ length (appended evs) <= 3.
Proof.
  exact (run_sink_requests_bounded demo_host demo_app [] [0]
           [[Message (js "m1"); Message (js "m2")]; [Message (js "m3")]]
           eq_refl eq_refl eq_refl).
Defined.

(* ------------------------------------------------------------------ *)
(** * Further properties: what the labelled patterns capture *)

Lemma prefixb_spec l s : prefixb l s = true <-> exists rest, s = l ++ rest.
Proof.
  revert s. induction l as [|x l IH]; intros s; simpl.
  - split; [eauto | reflexivity].
  - destruct s as [|y s].
    + split; [discriminate | intros (rest & H); discriminate].
    + rewrite andb_true_iff, N.eqb_eq, IH. split.
      * intros (-> & rest & ->). eauto.
      * intros (rest & H). inversion H; subst. eauto.
Qed.

Lemma prefixb_app_short : forall l s t,
  length l <= length s -> prefixb l (s ++ t) = prefixb l s.
Proof.
  induction l as [|x l IH]; intros s t H; [reflexivity|].
  destruct s as [|y s]; simpl in *; [lia|].
  rewrite IH by lia. reflexivity.
Qed.

Lemma match_here_lits : forall l ps s g0 r,
  match_here ps s g0 = Some r ->
  match_here (lits l ++ ps) (l ++ s) g0 = Some r.
Proof.
  induction l as [|c l IH]; intros ps s g0 r H; [exact H|].
  cbn [lits map app match_here cls lo hi cap lit].
  apply rep_lit. apply IH. exact H.
Qed.

Lemma match_here_starts l ps s g0 r :
  match_here (lits l ++ ps) s g0 = Some r -> prefixb l s = true.
Proof.
  destruct r as [g rest]. intros H.
  apply match_here_sound in H. destruct H as (gs & _ & Hp).
  apply pmatch_lits in Hp. destruct Hp as (s' & -> & _).
  apply prefixb_spec. eauto.
Qed.

(** The leftmost match cannot start before the first occurrence of the
    label. *)
Lemma exec_label_first l ps tail : forall pre,
  label_first l pre = true ->
  exec (lits l ++ ps) (pre ++ l ++ tail)
  = option_map (prepend pre) (exec (lits l ++ ps) (l ++ tail)).
Proof.
  induction pre as [|x pre IH]; intros H.
  - simpl. destruct (exec (lits l ++ ps) (l ++ tail)); simpl;
      [now rewrite prepend_nil | reflexivity].
  - cbn [label_first] in H. apply andb_prop in H. destruct H as [Hx Hp].
    cbn [app]. rewrite exec_cons.
    + rewrite (IH Hp).
      destruct (exec (lits l ++ ps) (l ++ tail)); reflexivity.
    + destruct (match_here (lits l ++ ps) (x :: pre ++ l ++ tail) [])
        as [r|] eqn:E; [|reflexivity].
      apply match_here_starts in E.
      change (x :: pre ++ l ++ tail) with ((x :: pre) ++ l ++ tail) in E.
      rewrite app_assoc, prefixb_app_short in E
        by (rewrite length_app; lia).
      rewrite E in Hx. discriminate.
Qed.

Lemma labelled_patterns :
  P_date = labelled (js "支援受付日時:")
  /\ P_name = labelled (js "支援付者名:")
  /\ P_frequency = labelled (js "支援頻度:").
Proof. repeat split. Qed.

(** X16: where its label first occurs, a date, name or frequency pattern
    skips the white space after the label, line breaks included, and
    captures the text from the first other character to the end of that
    line: a field left empty takes the text of the next line. *)
Theorem labelled_field_capture l pre ws x g rest :
  label_first l pre = true ->
  forallb is_space ws = true ->
  is_space x = false ->
  forallb is_dot (x :: g) = true ->
  line_end rest ->
  exec (labelled l) (pre ++ l ++ ws ++ (x :: g) ++ rest)
  = Some (MatchResult pre [x :: g] rest).
Proof.
  intros Hl Hws Hx Hg Hrest. unfold labelled.
  rewrite exec_label_first by exact Hl.
  rewrite (exec_here _ _ [x :: g] rest).
  - unfold prepend. simpl. now rewrite app_nil_r.
  - apply match_here_lits.
    cbn [match_here cls lo hi cap many group].
    apply rep_greedy; [exact Hws | lia | exact I | simpl; now left |].
    apply rep_greedy; [exact Hg | simpl; lia | exact I | | reflexivity].
    destruct rest as [|y rest]; simpl; [exact I|]. left.
    unfold is_dot. simpl in Hrest. now rewrite Hrest.
Qed.

Lemma labelled_field_capture_witness :
  exec P_name body_with_empty_name
  = Some (MatchResult (js "支援受付日時: 2024/3/5 9:7:1" ++ LF)
                      [js "支援金額: 1,000円"] []).
Proof.
  refine (eq_trans _
            (labelled_field_capture (js "支援付者名:")
               (js "支援受付日時: 2024/3/5 9:7:1" ++ LF) LF
               25903%N (js "援金額: 1,000円") [] _ _ _ _ _));
    [| vm_compute; reflexivity | reflexivity | reflexivity
     | vm_compute; reflexivity | exact I].
  vm_compute. reflexivity.
Defined.

(** X17: where its label first occurs, the amount pattern captures the
    whole run of digits and commas between the white space after the
    label and the white space before the yen sign. *)
Theorem amount_capture pre ws g ws' rest :
  label_first (js "支援金額:") pre = true ->
  forallb is_space ws = true ->
  forallb is_digit_or_comma g = true ->
  1 <= length g ->
  forallb is_space ws' = true ->
  exec P_amount (pre ++ js "支援金額:" ++ ws ++ g ++ ws' ++ [YEN] ++ rest)
  = Some (MatchResult pre [g] rest).
Proof.
  intros Hl Hws Hg Hlen Hws'. unfold P_amount.
  rewrite exec_label_first by exact Hl.
  rewrite (exec_here _ _ [g] rest).
  - unfold prepend. simpl. now rewrite app_nil_r.
  - apply match_here_lits.
    cbn [match_here cls lo hi cap many group].
    assert (Hns : forallb (fun c => negb (is_space c)) g = true)
      by now apply digit_or_comma_not_space.
    apply rep_greedy; [exact Hws | lia | exact I | |].
    { apply blocked_head; [exact Hns | exact Hlen]. }
    apply rep_greedy; [exact Hg | simpl; lia | exact I | |].
    { destruct ws' as [|y ws']; simpl; left; [reflexivity|].
      simpl in Hws'. apply andb_prop in Hws'. destruct Hws' as [Hy _].
      unfold is_digit_or_comma. rewrite (space_not_digit _ Hy).
      destruct (is_char COMMA y) eqn:Ec; [|reflexivity].
      unfold is_char in Ec. apply N.eqb_eq in Ec. subst y. discriminate. }
    apply rep_greedy; [exact Hws' | lia | exact I | simpl; now left |].
    cbn [app]. apply rep_lit. reflexivity.
Qed.

Lemma amount_capture_witness :
  exec P_amount sample_body
  = Some (MatchResult
            (js "支援受付日時: 2024/3/5 9:7:1" ++ LF
             ++ js "支援付者名: 山田 太郎  (ID: 42)" ++ LF)
            [js "12,345"]
            (LF ++ js "支援頻度: 毎月 (継続)" ++ LF)).
Proof.
  refine (eq_trans _
            (amount_capture
               (js "支援受付日時: 2024/3/5 9:7:1" ++ LF
                ++ js "支援付者名: 山田 太郎  (ID: 42)" ++ LF)
               (js " ") (js "12,345") []
               (LF ++ js "支援頻度: 毎月 (継続)" ++ LF) _ _ _ _ _));
    [| vm_compute; reflexivity | reflexivity | reflexivity
     | simpl; lia | reflexivity].
  vm_compute. reflexivity.
Defined.

(* ------------------------------------------------------------------ *)
(** * Isolation of failures *)

(** C8: a message whose processing raises (when its body is read, or in
    the callback) is logged and processing goes on: the loop, the scan and
    the run handle every listed message in turn.  When the search raises,
    the run logs it and ends.  The method [checkForNewDonations] never
    raises, and once the constructor has read the script properties the
    entry point does not either. *)
Theorem failures_are_isolated host :
  (forall cb m t, fst (GmailService.processMessage host cb m t) = Ok tt)
  /\ (forall cb m t e,
        getPlainBody host t m = Throw e ->
        GmailService.processMessage host cb m t
        = (Ok tt, t ++ [MessageGetPlainBody m; Console ERROR (MessageFailed e)]))
  /\ (forall cb m t body d e t',
        getPlainBody host t m = Ok body ->
        extractDonationDetails body = Ok (Some d) ->
        cb d (message_id m) (t ++ [MessageGetPlainBody m]) = (Throw e, t') ->
        GmailService.processMessage host cb m t
        = (Ok tt, t' ++ [Console ERROR (MessageFailed e)]))
  /\ (forall cb ms t,
        for_of ms (GmailService.processMessage host cb) t
        = (Ok tt,
           fold_left (fun t' m => snd (GmailService.processMessage host cb m t'))
                     ms t))
  /\ (forall cb t threads nested,
        search host t GmailService.SEARCH_QUERY = Ok threads ->
        getMessagesForThreads host
          (t ++ [GmailSearch GmailService.SEARCH_QUERY]) threads = Ok nested ->
        GmailService.processNewDonations host cb t
        = (Ok tt,
           fold_left (fun t' m => snd (GmailService.processMessage host cb m t'))
                     (concat nested)
                     (t ++ [GmailSearch GmailService.SEARCH_QUERY;
                            GmailGetMessagesForThreads threads])))
  /\ (forall app t threads nested,
        ConfigService.isConfigValid (DonationNotifierApp.config app) = true ->
        search host (t ++ [Console LOG CheckStarted]) GmailService.SEARCH_QUERY
        = Ok threads ->
        getMessagesForThreads host
          (t ++ [Console LOG CheckStarted;
                 GmailSearch GmailService.SEARCH_QUERY]) threads = Ok nested ->
        exists evs,
          DonationNotifierApp.checkForNewDonations host app t
          = (Ok tt, t ++ evs)
          /\ body_reads evs = concat nested)
  /\ (forall app t,
        fst (DonationNotifierApp.checkForNewDonations host app t) = Ok tt)
  /\ (forall app t e,
        ConfigService.isConfigValid (DonationNotifierApp.config app) = true ->
        search host (t ++ [Console LOG CheckStarted]) GmailService.SEARCH_QUERY
        = Throw e ->
        DonationNotifierApp.checkForNewDonations host app t
        = (Ok tt, t ++ [Console LOG CheckStarted;
                        GmailSearch GmailService.SEARCH_QUERY;
                        Console ERROR (CheckFailed e)]))
  /\ (forall t config t1,
        ConfigService.loadConfig host t = (Ok config, t1) ->
        fst (checkForNewDonations host t) = Ok tt).
Proof.
  repeat split.
  - apply processMessage_ok.
  - intros cb m t e H. unfold GmailService.processMessage. unfold_m.
    rewrite H. trace_norm. reflexivity.
  - intros cb m t body d e t' Hb He Hc.
    unfold GmailService.processMessage. unfold_m.
    rewrite Hb, He, Hc. reflexivity.
  - intros cb ms t. apply for_of_processMessage.
  - intros cb t threads nested Hs Hm.
    rewrite processNewDonations_unfold. cbv zeta. rewrite Hs, Hm.
    reflexivity.
  - intros app t threads nested Hv Hs Hm.
    destruct (run_shape host app t threads nested Hv Hs Hm)
      as (evs & H & Hb & _).
    eauto.
  - apply app_check_ok.
  - intros app t e Hv Hs.
    unfold DonationNotifierApp.checkForNewDonations. rewrite Hv. simpl.
    unfold GmailService.processNewDonations. unfold_m.
    rewrite Hs. trace_norm. reflexivity.
  - intros t config t1 Hc. unfold checkForNewDonations, DonationNotifierApp.new.
    unfold bind. rewrite Hc.
    destruct (initializeServices_ok host config t1) as (app & t' & ->).
    apply app_check_ok.
Qed.

Lemma failures_are_isolated_witness :
  GmailService.processMessage demo_host (fun _ _ => ret tt) (Message (js "m1")) []
  = (Ok tt, [MessageGetPlainBody (Message (js "m1"));
             Console ERROR (MessageFailed (HostError 1))]).
Proof.
  exact (proj1 (proj2 (failures_are_isolated demo_host))
           (fun _ _ => ret tt) (Message (js "m1")) [] (HostError 1) eq_refl).
Defined.

(** X18: the entry point raises exactly when reading the script
    properties raises, and then what that read raised: every other
    failure is caught on the way. *)
Theorem entry_point_outcome host t :
  fst (checkForNewDonations host t)
  = match fst (ConfigService.loadConfig host t) with
    | Ok _ => Ok tt
    | Throw e => Throw e
    end.
Proof.
  unfold checkForNewDonations, DonationNotifierApp.new, bind.
  destruct (ConfigService.loadConfig host t) as [[config|e] t1];
    [|reflexivity].
  destruct (initializeServices_ok host config t1) as (app & t' & ->).
  apply app_check_ok.
Qed.

(** The property store cannot be read: the entry point raises, having
    asked nothing else. *)
Example failing_properties_run :
  checkForNewDonations failing_properties_host []
  = (Throw (HostError 5), [PropertiesGetScriptProperties]).
Proof. vm_compute. reflexivity. Qed.
